(** * Bazarr launcher: the supervisor of the worker process

    A shallow embedding of [bazarr/launcher.py]: the supervisor spawns the
    worker ([start_bazarr]), polls two sentinel files ([check_status]),
    restarts or stops the worker on request ([terminate_child]) and
    escalates repeated keyboard interrupts ([interrupt_handler]).

    Effectful code is written in a small state-and-exception monad over a
    [world] record (file system, process table, environment, log of
    observable effects).  Python's [try]/[except]/[finally] and early
    [return] are combinators of that monad.

    What the model covers. Text is made of code points below 256. The
    world changes only through the calls of the launcher: other processes
    do not touch the sentinel files during a call. A [wait] on a child
    that never exits is an outcome of its own ([Hang]). Interrupts reach
    the supervisor during the sleep of the loop, where each delivery
    comes with the process listing the probe would read at that moment.
    The constants of [bazarr.literals] and the functions of [os.path] are
    parameters. *)

From Stdlib Require Import ZArith List Ascii String Bool Lia.
From stdpp Require Import base option gmap strings list fin_maps pretty.
Import ListNotations.
Local Open Scope string_scope.
Local Open Scope Z_scope.

(** ** Python built-ins on text *)

Module Py.

(** Text is a list of code points below 256, one [ascii] each. *)

Definition code (c : ascii) : N := N_of_ascii c.

(** [str.isspace] on code points below 256: the characters [str.split]
    separates on. *)
Definition is_unicode_space (c : ascii) : bool :=
  let n := code c in
  ((9 <=? n) && (n <=? 13) || (28 <=? n) && (n <=? 32)
   || (n =? 133) || (n =? 160))%N.

(** The characters [int] skips around a literal: the C [isspace] set, and
    the non-ASCII spaces, which [int] first rewrites to a blank. The
    separators 28..31 are kept as they are and then rejected. *)
Definition is_int_space (c : ascii) : bool :=
  let n := code c in
  ((9 <=? n) && (n <=? 13) || (n =? 32) || (n =? 133) || (n =? 160))%N.

Definition digit_value (c : ascii) : option Z :=
  let n := code c in
  if ((48 <=? n) && (n <=? 57))%N then Some (Z.of_N n - 48) else None.

Fixpoint lstrip (l : list ascii) : list ascii :=
  match l with
  | c :: l' => if is_int_space c then lstrip l' else l
  | [] => []
  end.

Definition rstrip (l : list ascii) : list ascii := rev (lstrip (rev l)).

(** The default of [sys.get_int_max_str_digits()]: a longer literal makes
    [int] raise [ValueError]. *)
Definition int_max_str_digits : nat := 4300.

(** Digits with single underscores between them. [prev_us] says that the
    character before was an underscore; [acc] is the value read so far and
    [n] the number of digits read. *)
Fixpoint parse_digits (l : list ascii) (prev_us : bool) (acc : Z) (n : nat)
  : option (Z * nat) :=
  match l with
  | [] => if prev_us then None else Some (acc, n)
  | c :: l' =>
      if Ascii.eqb c "_"%char then
        if prev_us then None else parse_digits l' true acc n
      else
        match digit_value c with
        | Some d => parse_digits l' false (10 * acc + d) (S n)
        | None => None
        end
  end.

Definition parse_unsigned (l : list ascii) : option Z :=
  match l with
  | [] => None
  | c :: _ =>
      if Ascii.eqb c "_"%char then None
      else
        match parse_digits l false 0 0%nat with
        | Some (v, n) => if (n <=? int_max_str_digits)%nat then Some v else None
        | None => None
        end
  end.

(** [int(s)] for a [str] in base 10: [None] stands for [ValueError]. *)
Definition int (s : string) : option Z :=
  match rstrip (lstrip (list_ascii_of_string s)) with
  | c :: l' =>
      if Ascii.eqb c "-"%char then Z.opp <$> parse_unsigned l'
      else if Ascii.eqb c "+"%char then parse_unsigned l'
      else parse_unsigned (c :: l')
  | [] => None
  end.

(** [file.readline()] in text mode with universal newlines: the text up
    to the first line end, which is returned as a line feed whether it was
    written as LF, CR or CR LF. *)
Fixpoint readline_chars (l : list ascii) : list ascii :=
  match l with
  | [] => []
  | c :: l' =>
      if (code c =? 10)%N || (code c =? 13)%N then ["010"%char]
      else c :: readline_chars l'
  end.

Definition readline (content : string) : string :=
  string_of_list_ascii (readline_chars (list_ascii_of_string content)).

(** [s.split()] with no separator: the maximal runs of non-space
    characters. [cur] is the run being read, in reverse. *)
Fixpoint split_chars (l : list ascii) (cur : list ascii) : list string :=
  let flush := match cur with
               | [] => []
               | _ => [string_of_list_ascii (rev cur)]
               end in
  match l with
  | [] => flush
  | c :: l' =>
      if is_unicode_space c then flush ++ split_chars l' []
      else split_chars l' (c :: cur)
  end.

Definition split (s : string) : list string :=
  split_chars (list_ascii_of_string s) [].

(** [str(n)] for an integer. *)
Definition str (n : Z) : string := pretty n.

(** [s.startswith(p)]. *)
Definition startswith (s p : string) : bool := String.prefix p s.

(** [x in l] for a list of strings. *)
Definition contains (x : string) (l : list string) : bool :=
  existsb (String.eqb x) l.

End Py.

(** ** The world the launcher runs in *)

(** Python exceptions the launcher can meet. [SystemExit] and
    [KeyboardInterrupt] derive from [BaseException] only; the others are
    subclasses of [Exception]. *)
Inductive exn :=
| SystemExit (code : Z)
| KeyboardInterrupt
| ChildProcessError
| FileNotFoundError
| PermissionError
| IsADirectoryError
| OSError
| ValueError
| TypeError
| NameError.

Definition is_Exception (e : exn) : bool :=
  match e with
  | SystemExit _ | KeyboardInterrupt => false
  | _ => true
  end.

Definition is_FileNotFoundError (e : exn) : bool :=
  match e with FileNotFoundError => true | _ => false end.

Definition is_ValueError_or_TypeError (e : exn) : bool :=
  match e with ValueError | TypeError => true | _ => false end.

Definition is_interrupt_like (e : exn) : bool :=
  match e with
  | KeyboardInterrupt | SystemExit _ | ChildProcessError => true
  | _ => false
  end.

(** Why [os.remove] fails on a path that exists. *)
Inductive unlink_failure := Denied | IsDirectory | OtherFailure.

Definition exn_of_unlink_failure (f : unlink_failure) : exn :=
  match f with
  | Denied => PermissionError
  | IsDirectory => IsADirectoryError
  | OtherFailure => OSError
  end.

(** A path of the file system: what reading it as text yields ([None]:
    [open] or the read raises [OSError]) and whether it can be unlinked. *)
Record node := Node {
  n_text : option string;
  n_unlink : option unlink_failure
}.

(** A child process: running, sent SIGTERM and not yet reaped, or exited
    and reaped with a return code. *)
Inductive pstate :=
| Running
| Signalled
| Exited (rc : Z).

Record process := Process {
  p_argv : list string;
  p_env : gmap string string;
  p_state : pstate
}.

(** Observable effects, in the order they happen. *)
Inductive event :=
| Print (line : string)
| SignalInstalled
| SetEnv (key value : string)
| Remove (path : string) (error : option exn)
| Mkdtemp (dir : string)
| Symlink (src dst : string)
| Spawn (pid : Z) (argv : list string)
| SendTerm (pid : Z)
| Waited (pid : Z) (rc : Z)
| Probe (cmd : list string)
| Sleep (seconds : Z).

(** What the launcher reads from its host and never changes: the
    interpreter ([sys], [platform]), the [os.path] functions of the
    platform, the parsed command line ([args.config_dir]) and the
    location of the package. [worker_on_term pid] is what the process
    [pid] does once SIGTERM reaches it: exit with a code, or never exit. *)
Record host := Host {
  sys_platform : string;
  sys_argv : list string;
  sys_executable : string;
  sys_base_exec_prefix : string;
  python_version_tuple : Z * Z * Z;
  python_version : string;
  os_path_join : string -> string -> string;
  os_path_dirname : string -> string;
  os_path_normcase : string -> string;
  launcher_abspath : string;
  bazarr_main_file : option string;
  tempfile_mkdtemp : string;
  args_config_dir : string;
  worker_on_term : Z -> option Z
}.

Record world := World {
  w_host : host;
  fs : gmap string node;
  environ : gmap string string;
  procs : gmap Z process;
  next_pid : Z;
  ps_stdout : list string -> string;
  sigint_installed : bool;
  interrupted : bool;
  child_cell : option Z;
  log : list event
}.

Definition with_fs (f : gmap string node) (w : world) : world :=
  World (w_host w) f (environ w) (procs w) (next_pid w) (ps_stdout w)
        (sigint_installed w) (interrupted w) (child_cell w) (log w).
Definition with_environ (e : gmap string string) (w : world) : world :=
  World (w_host w) (fs w) e (procs w) (next_pid w) (ps_stdout w)
        (sigint_installed w) (interrupted w) (child_cell w) (log w).
Definition with_procs (p : gmap Z process) (w : world) : world :=
  World (w_host w) (fs w) (environ w) p (next_pid w) (ps_stdout w)
        (sigint_installed w) (interrupted w) (child_cell w) (log w).
Definition with_next_pid (n : Z) (w : world) : world :=
  World (w_host w) (fs w) (environ w) (procs w) n (ps_stdout w)
        (sigint_installed w) (interrupted w) (child_cell w) (log w).
Definition with_ps_stdout (f : list string -> string) (w : world) : world :=
  World (w_host w) (fs w) (environ w) (procs w) (next_pid w) f
        (sigint_installed w) (interrupted w) (child_cell w) (log w).
Definition with_sigint_installed (b : bool) (w : world) : world :=
  World (w_host w) (fs w) (environ w) (procs w) (next_pid w) (ps_stdout w)
        b (interrupted w) (child_cell w) (log w).
Definition with_interrupted (b : bool) (w : world) : world :=
  World (w_host w) (fs w) (environ w) (procs w) (next_pid w) (ps_stdout w)
        (sigint_installed w) b (child_cell w) (log w).
Definition with_child_cell (c : option Z) (w : world) : world :=
  World (w_host w) (fs w) (environ w) (procs w) (next_pid w) (ps_stdout w)
        (sigint_installed w) (interrupted w) c (log w).
Definition emit (e : event) (w : world) : world :=
  World (w_host w) (fs w) (environ w) (procs w) (next_pid w) (ps_stdout w)
        (sigint_installed w) (interrupted w) (child_cell w) (log w ++ [e]).

(** ** The monad: state, exceptions, and calls that never return *)

Inductive outcome (A : Type) :=
| Ok (a : A) (w : world)
| Raise (e : exn) (w : world)
| Hang (w : world).
Arguments Ok {A} a w.
Arguments Raise {A} e w.
Arguments Hang {A} w.

Definition M (A : Type) : Type := world -> outcome A.

Definition ret {A} (a : A) : M A := fun w => Ok a w.

Definition bind {A B} (m : M A) (k : A -> M B) : M B :=
  fun w =>
    match m w with
    | Ok a w1 => k a w1
    | Raise e w1 => Raise e w1
    | Hang w1 => Hang w1
    end.

Declare Scope launcher_scope.
Delimit Scope launcher_scope with launcher.
Notation "x <- m ;; k" := (bind m (fun x => k))
  (at level 100, m at next level, k at level 200, right associativity)
  : launcher_scope.
Notation "m ;; k" := (bind m (fun _ => k))
  (at level 100, k at level 200, right associativity) : launcher_scope.
Local Open Scope launcher_scope.

Definition raise {A} (e : exn) : M A := fun w => Raise e w.
Definition get {A} (f : world -> A) : M A := fun w => Ok (f w) w.
Definition modify (f : world -> world) : M unit := fun w => Ok tt (f w).
Definition pass : M unit := ret tt.

(** [try: body / except <classes>: handler]. *)
Definition try_except {A} (body : M A) (catches : exn -> bool)
  (handler : exn -> M A) : M A :=
  fun w =>
    match body w with
    | Raise e w1 => if catches e then handler e w1 else Raise e w1
    | o => o
    end.

(** How a block of statements completes when it does not raise: it runs
    off its end, or it executes [return r]. *)
Inductive completion (R : Type) :=
| Fallthrough
| Returned (r : R).
Arguments Fallthrough {R}.
Arguments Returned {R} r.

Definition block (R : Type) : Type := M (completion R).

Definition stmt {R} (m : M unit) : block R := m ;; ret Fallthrough.
Definition return_ {R} (m : M R) : block R := r <- m ;; ret (Returned r).

(** Statements in sequence: a [return] skips what follows. *)
Definition seq {R} (s1 s2 : block R) : block R :=
  c <- s1 ;;
  match c with
  | Fallthrough => s2
  | Returned r => ret (Returned r)
  end.
Notation "s1 ;;; s2" := (seq s1 s2)
  (at level 100, s2 at level 200, right associativity) : launcher_scope.

Definition if_ {R} (cond : M bool) (body : block R) : block R :=
  b <- cond ;; if b then body else ret Fallthrough.

(** [try: body / finally: fin]. The [finally] block runs however [body]
    completes; when it raises or returns itself, that replaces the pending
    exception or return of [body]. *)
Definition try_finally {R} (body fin : block R) : block R :=
  fun w =>
    match body w with
    | Hang w1 => Hang w1
    | Ok c w1 =>
        match fin w1 with
        | Ok Fallthrough w2 => Ok c w2
        | o => o
        end
    | Raise e w1 =>
        match fin w1 with
        | Ok Fallthrough w2 => Raise e w2
        | o => o
        end
    end.

(** A function body whose last statement is [return last]. *)
Definition returning {R} (body : block R) (last : M R) : M R :=
  c <- body ;;
  match c with
  | Returned r => ret r
  | Fallthrough => last
  end.

(** ** Primitives: [print], [os], [open], [subprocess], [signal] *)

Definition print (line : string) : M unit := modify (emit (Print line)).

Definition os_path_exists (path : string) : M bool :=
  get (fun w => match fs w !! path with Some _ => true | None => false end).

(** [os.remove(path)]: the attempt is logged with its error, if any. *)
Definition os_remove (path : string) : M unit :=
  fun w =>
    match fs w !! path with
    | None =>
        Raise FileNotFoundError (emit (Remove path (Some FileNotFoundError)) w)
    | Some nd =>
        match n_unlink nd with
        | Some f =>
            let e := exn_of_unlink_failure f in
            Raise e (emit (Remove path (Some e)) w)
        | None =>
            Ok tt (emit (Remove path None) (with_fs (delete path (fs w)) w))
        end
    end.

(** [with open(path, 'r') as file: file.readline()]. *)
Definition open_readline (path : string) : M string :=
  fun w =>
    match fs w !! path with
    | None => Raise FileNotFoundError w
    | Some nd =>
        match n_text nd with
        | None => Raise OSError w
        | Some text => Ok (Py.readline text) w
        end
    end.

Definition py_int (s : string) : M Z :=
  match Py.int s with
  | Some n => ret n
  | None => raise ValueError
  end.

Definition os_environ_set (key value : string) : M unit :=
  modify (fun w => emit (SetEnv key value)
                     (with_environ (<[key := value]> (environ w)) w)).

(** [tempfile.mkdtemp()]: a new directory, which cannot be read as text
    nor unlinked as a file. *)
Definition tempfile_mkdtemp_call : M string :=
  fun w =>
    let d := tempfile_mkdtemp (w_host w) in
    Ok d (emit (Mkdtemp d)
            (with_fs (<[d := Node None (Some IsDirectory)]> (fs w)) w)).

(** [os.symlink(src, dst)]: [dst] now resolves to what [src] holds. *)
Definition os_symlink (src dst : string) : M unit :=
  fun w =>
    match fs w !! src with
    | None => Ok tt (emit (Symlink src dst) w)
    | Some nd =>
        Ok tt (emit (Symlink src dst)
                 (with_fs (<[dst := Node (n_text nd) None]> (fs w)) w))
    end.

(** The state of the child behind a [Popen] handle. A handle the process
    table does not know behaves as a child that was reaped with code 0. *)
Definition state_of (w : world) (pid : Z) : pstate :=
  match procs w !! pid with
  | Some p => p_state p
  | None => Exited 0
  end.

Definition set_state (pid : Z) (st : pstate) (w : world) : world :=
  with_procs (alter (fun p => Process (p_argv p) (p_env p) st) pid (procs w)) w.

(** [Popen.poll()]: the return code, or [None] while the child runs. *)
Definition popen_poll (pid : Z) : M (option Z) :=
  get (fun w => match state_of w pid with
                | Exited rc => Some rc
                | _ => None
                end).

(** [Popen.terminate()]: SIGTERM, unless the child was reaped already. *)
Definition popen_terminate (pid : Z) : M unit :=
  fun w =>
    match state_of w pid with
    | Exited _ => Ok tt w
    | _ => Ok tt (emit (SendTerm pid) (set_state pid Signalled w))
    end.

(** [Popen.wait()] with no timeout: returns once the child has exited. A
    child that was sent SIGTERM exits as [worker_on_term] says, or not at
    all; a child that was not signalled keeps running. *)
Definition popen_wait (pid : Z) : M Z :=
  fun w =>
    match state_of w pid with
    | Exited rc => Ok rc (emit (Waited pid rc) w)
    | Signalled =>
        match worker_on_term (w_host w) pid with
        | Some rc => Ok rc (emit (Waited pid rc) (set_state pid (Exited rc) w))
        | None => Hang w
        end
    | Running => Hang w
    end.

(** [subprocess.Popen(script, stdin=DEVNULL, env=os.environ)]: fails when
    the executable is not there, else a new running child. *)
Definition popen (script : list string) : M Z :=
  fun w =>
    match script with
    | [] => Raise ValueError w
    | exe :: _ =>
        match fs w !! exe with
        | None => Raise FileNotFoundError w
        | Some _ =>
            let pid := next_pid w in
            Ok pid
              (emit (Spawn pid script)
                 (with_next_pid (pid + 1)
                    (with_procs
                       (<[pid := Process script (environ w) Running]> (procs w))
                       w)))
        end
    end.

(** [subprocess.run(cmd, capture_output=True, text=True).stdout]. *)
Definition subprocess_run_stdout (cmd : list string) : M string :=
  modify (emit (Probe cmd)) ;; get (fun w => ps_stdout w cmd).

Definition signal_install_sigint : M unit :=
  modify (fun w => emit SignalInstalled (with_sigint_installed true w)).

(** ** The launcher *)

Section Launcher.

(** The constants of [bazarr.literals]. *)
Variables EXIT_PYTHON_UPGRADE_NEEDED EXIT_NORMAL EXIT_INTERRUPT : Z.
Variables FILE_RESTART FILE_STOP ENV_RESTARTFILE ENV_STOPFILE : string.

Definition exit_program {A} (status_code : Z) : M A :=
  print ("Bazarr exited with status code " ++ Py.str status_code ++ ".") ;;
  raise (SystemExit status_code).

Definition minimum_py3_str : string := "3.8.0".

Definition upgrade_message (current : string) : string :=
  "Python " ++ minimum_py3_str ++ " or greater required. "
  ++ "Current version is " ++ current ++ ". Please upgrade Python.".

Definition unsupported_message (current : string) : string :=
  "Python version greater than 3.12.x is unsupported. Current version is "
  ++ current ++ ". Keep in mind that even if it works, you're on your own.".

Definition check_python_version : M unit :=
  h <- get w_host ;;
  let '(major, minor, _) := python_version_tuple h in
  if major <? 3 then
    print (upgrade_message (python_version h)) ;;
    exit_program EXIT_PYTHON_UPGRADE_NEEDED
  else if (major =? 3) && (minor >? 12) then
    print (unsupported_message (python_version h))
  else if (major =? 3) && (minor <? 8) || negb (major =? 3) then
    print (upgrade_message (python_version h)) ;;
    exit_program EXIT_PYTHON_UPGRADE_NEEDED
  else pass.

(** [os.path.join] of several components. *)
Definition join_all (h : host) (first : string) (rest : list string) : string :=
  fold_left (os_path_join h) rest first.

Definition get_python_path : M string :=
  h <- get w_host ;;
  returning
    (if String.eqb (sys_platform h) "darwin" then
       let python_bundle_path :=
         join_all h (sys_base_exec_prefix h)
           ["Resources"; "Python.app"; "Contents"; "MacOS"; "Python"] in
       if_ (os_path_exists python_bundle_path)
         (return_
            (d <- tempfile_mkdtemp_call ;;
             let python_path := os_path_join h d "python" in
             os_symlink python_bundle_path python_path ;;
             ret python_path))
     else ret Fallthrough)
    (ret (sys_executable h)).

Definition get_main_script_path : M string :=
  h <- get w_host ;;
  returning
    ((match bazarr_main_file h with
      | Some file =>
          let bazarr_dir := os_path_dirname h (os_path_dirname h file) in
          let main_py := join_all h bazarr_dir ["bazarr"; "main.py"] in
          if_ (os_path_exists main_py) (return_ (ret main_py))
      | None => ret Fallthrough
      end) ;;;
     (let dir_name := os_path_dirname h (launcher_abspath h) in
      let main_py := os_path_join h dir_name "main.py" in
      if_ (os_path_exists main_py) (return_ (ret main_py))))
    (let dir_name := os_path_dirname h (os_path_dirname h (launcher_abspath h)) in
     ret (join_all h dir_name ["bazarr"; "main.py"])).

Definition start_bazarr : M Z :=
  h <- get w_host ;;
  main_script <- get_main_script_path ;;
  python <- get_python_path ;;
  let script :=
    ([python; "-u"; os_path_normcase h main_script] ++ tail (sys_argv h))%list in
  ep <- popen script ;;
  print ("Bazarr starting child process with PID " ++ Py.str ep ++ "...") ;;
  ret ep.

Definition terminate_child (child_process : Z) : M unit :=
  print ("Terminating child process with PID " ++ Py.str child_process) ;;
  rc <- popen_poll child_process ;;
  (match rc with
   | None => popen_terminate child_process
   | Some _ => pass
   end) ;;
  popen_wait child_process ;;
  pass.

Definition get_stop_status_code (input_file : string) : M Z :=
  try_except
    (line <- open_readline input_file ;;
     try_except (py_int line)
       is_ValueError_or_TypeError (fun _ => ret EXIT_NORMAL))
    is_Exception (fun _ => ret EXIT_NORMAL).

Definition check_status (child_process : Z) (restart_file stop_file : string)
  : M Z :=
  returning
    (if_ (os_path_exists stop_file)
       (status_code <- get_stop_status_code stop_file ;;
        try_finally
          (try_except
             (stmt (print "Deleting stop file..." ;; os_remove stop_file))
             is_Exception
             (fun _ => stmt (print "Unable to delete stop file.")))
          (terminate_child child_process ;;
           exit_program status_code)) ;;;
     if_ (os_path_exists restart_file)
       (try_finally
          (try_except
             (stmt (print "Deleting restart file..." ;; os_remove restart_file))
             is_Exception
             (fun _ => stmt (print "Unable to delete restart file.")))
          (terminate_child child_process ;;
           print "Bazarr is restarting..." ;;
           return_ start_bazarr)))
    (ret child_process).

(** The commands of [is_process_running], in the order of the dict. *)
Definition commands (pid : Z) : list (string * list string) :=
  [ ("win", ["tasklist"; "/FI"; "PID eq " ++ Py.str pid]);
    ("linux", ["ps"; "-eo"; "pid"]);
    ("darwin", ["ps"; "-ax"; "-o"; "pid"]) ].

Fixpoint probe_first (platform : string) (pid : Z)
  (cmds : list (string * list string)) : M bool :=
  match cmds with
  | [] => print "Unsupported OS" ;; ret false
  | (key, cmd) :: rest =>
      if Py.startswith platform key then
        out <- subprocess_run_stdout cmd ;;
        ret (Py.contains (Py.str pid) (Py.split out))
      else probe_first platform pid rest
  end.

Definition is_process_running (pid : Z) : M bool :=
  h <- get w_host ;;
  probe_first (sys_platform h) pid (commands pid).

(** [interrupted] is the one-element list of [main]; its cell lives in
    the world. *)
Definition interrupt_handler (child_process : Z) : M unit :=
  flag <- get interrupted ;;
  if negb flag then
    modify (with_interrupted true) ;;
    print "Handling keyboard interrupt..."
  else
    running <- is_process_running child_process ;;
    if negb running then raise (SystemExit EXIT_INTERRUPT) else pass.

(** The closure [_interrupt_handler] of [main]: its argument list reads
    the variable [child_process] of [main], unbound until the first
    worker has been started. *)
Definition _interrupt_handler : M unit :=
  cell <- get child_cell ;;
  match cell with
  | None => raise NameError
  | Some child_process => interrupt_handler child_process
  end.

(** One SIGINT reaching the supervisor while the process listing reads
    [listing]: the installed handler runs, or Python's default one. *)
Definition deliver_sigint (listing : string) : M unit :=
  modify (with_ps_stdout (fun _ => listing)) ;;
  installed <- get sigint_installed ;;
  if installed then _interrupt_handler else raise KeyboardInterrupt.

Fixpoint deliver_all (listings : list string) : M unit :=
  match listings with
  | [] => pass
  | l :: rest => deliver_sigint l ;; deliver_all rest
  end.

(** [time.sleep(seconds)] during which the given interrupts arrive. A
    handler that raises ends the sleep with its exception. *)
Definition time_sleep (seconds : Z) (sigints : list string) : M unit :=
  modify (emit (Sleep seconds)) ;; deliver_all sigints.

Definition restart_path (h : host) : string :=
  os_path_join h (args_config_dir h) FILE_RESTART.
Definition stop_path (h : host) : string :=
  os_path_join h (args_config_dir h) FILE_STOP.

(** [main] up to and including the start of the first worker. *)
Definition main_startup : M unit :=
  check_python_version ;;
  modify (fun w => with_child_cell None (with_interrupted false w)) ;;
  signal_install_sigint ;;
  h <- get w_host ;;
  let restart_file := restart_path h in
  let stop_file := stop_path h in
  os_environ_set ENV_STOPFILE stop_file ;;
  os_environ_set ENV_RESTARTFILE restart_file ;;
  try_except (os_remove restart_file) is_FileNotFoundError (fun _ => pass) ;;
  try_except (os_remove stop_file) is_FileNotFoundError (fun _ => pass) ;;
  child_process <- start_bazarr ;;
  modify (with_child_cell (Some child_process)).

(** One iteration of [while True], with the interrupts that arrive
    during its sleep. *)
Definition main_iteration (sigints : list string) : M unit :=
  h <- get w_host ;;
  cell <- get child_cell ;;
  match cell with
  | None => raise NameError
  | Some child_process =>
      child_process' <-
        check_status child_process (restart_path h) (stop_path h) ;;
      modify (with_child_cell (Some child_process')) ;;
      try_except (time_sleep 5 sigints) is_interrupt_like
        (fun _ =>
           print "Bazarr exited main script file via keyboard interrupt." ;;
           exit_program EXIT_INTERRUPT)
  end.

(** The loop over a schedule of ticks: the loop has no exit of its own,
    so a schedule that runs out leaves the supervisor polling. *)
Fixpoint main_loop (ticks : list (list string)) : M unit :=
  match ticks with
  | [] => pass
  | sigints :: rest => main_iteration sigints ;; main_loop rest
  end.

Definition main (ticks : list (list string)) : M unit :=
  main_startup ;; main_loop ticks.

End Launcher.

(** ** A concrete host: POSIX paths, Linux *)

Module Posix.

Definition ends_with_slash (s : string) : bool :=
  match rev (list_ascii_of_string s) with
  | c :: _ => Ascii.eqb c "/"%char
  | [] => false
  end.

(** [posixpath.join(a, b)]. *)
Definition join (a b : string) : string :=
  if Py.startswith b "/" then b
  else if String.eqb a "" || ends_with_slash a then a ++ b
  else a ++ "/" ++ b.

Fixpoint drop_to_slash (rev_chars : list ascii) : list ascii :=
  match rev_chars with
  | [] => []
  | c :: l => if Ascii.eqb c "/"%char then rev_chars else drop_to_slash l
  end.

Fixpoint drop_slashes (rev_chars : list ascii) : list ascii :=
  match rev_chars with
  | [] => []
  | c :: l => if Ascii.eqb c "/"%char then drop_slashes l else rev_chars
  end.

(** [posixpath.dirname(p)]: the head up to the last slash, without its
    trailing slashes unless it consists of slashes only. *)
Definition dirname (p : string) : string :=
  let head := drop_to_slash (rev (list_ascii_of_string p)) in
  match drop_slashes head with
  | [] => string_of_list_ascii (rev head)
  | stripped => string_of_list_ascii (rev stripped)
  end.

Definition normcase (p : string) : string := p.

End Posix.

Module Demo.

Definition EXIT_NORMAL : Z := 0.
Definition EXIT_INTERRUPT : Z := -100.
Definition EXIT_PYTHON_UPGRADE_NEEDED : Z := -103.
Definition FILE_RESTART : string := "restart".
Definition FILE_STOP : string := "stop".
Definition ENV_RESTARTFILE : string := "RESTARTFILE".
Definition ENV_STOPFILE : string := "STOPFILE".

Definition linux : host :=
  {| sys_platform := "linux";
     sys_argv := ["bazarr.py"; "-c"; "/tmp/x"; "--debug"];
     sys_executable := "/usr/bin/python3";
     sys_base_exec_prefix := "/usr";
     python_version_tuple := (3, 11, 2);
     python_version := "3.11.2";
     os_path_join := Posix.join;
     os_path_dirname := Posix.dirname;
     os_path_normcase := Posix.normcase;
     launcher_abspath := "/opt/bazarr/bazarr/launcher.py";
     bazarr_main_file := Some "/opt/bazarr/bazarr/main.py";
     tempfile_mkdtemp := "/tmp/tmp0";
     args_config_dir := "/tmp/x";
     worker_on_term := fun _ => Some (-15) |}.

Definition plain (text : string) : node := Node (Some text) None.

(** A line of text with its line feed. *)
Definition line (text : string) : string := text ++ String "010" "".

Definition installed_files : gmap string node :=
  <["/usr/bin/python3" := plain ""]>
    (<["/opt/bazarr/bazarr/main.py" := plain ""]> ∅).

(** A supervisor in its loop: worker 4242 runs, no sentinel file. *)
Definition worker : process :=
  Process ["/usr/bin/python3"; "-u"; "/opt/bazarr/bazarr/main.py";
           "-c"; "/tmp/x"; "--debug"] ∅ Running.

Definition polling : world :=
  {| w_host := linux;
     fs := installed_files;
     environ := ∅;
     procs := <[4242 := worker]> ∅;
     next_pid := 4243;
     ps_stdout := fun _ => "";
     sigint_installed := true;
     interrupted := false;
     child_cell := Some 4242;
     log := [] |}.

(** A world before [main] has run. *)
Definition fresh : world :=
  {| w_host := linux;
     fs := installed_files;
     environ := ∅;
     procs := ∅;
     next_pid := 4242;
     ps_stdout := fun _ => "";
     sigint_installed := false;
     interrupted := false;
     child_cell := None;
     log := [] |}.

Definition with_file (path : string) (nd : node) (w : world) : world :=
  with_fs (<[path := nd]> (fs w)) w.

(** The scenario of the stop request: [/tmp/x/stop] holds the line 7. *)
Definition stop_requested : world :=
  with_file "/tmp/x/stop" (plain (line "7")) polling.

(** The scenario of the restart request: [/tmp/x/restart] is empty. *)
Definition restart_requested : world :=
  with_file "/tmp/x/restart" (plain "") polling.

(** The stop request next to a restart request: both files are there. *)
Definition stop_and_restart_requested : world :=
  with_file "/tmp/x/restart" (plain "") stop_requested.

(** A stop-file that does not hold a number. *)
Definition garbled_stop_requested : world :=
  with_file "/tmp/x/stop" (plain "now") polling.

(** A stop request whose file cannot be deleted. *)
Definition sticky_stop_requested : world :=
  with_file "/tmp/x/stop" (Node (Some (line "7")) (Some Denied))
    polling.

(** A first start with a leftover restart-file that cannot be deleted. *)
Definition sticky_leftover : world :=
  with_file "/tmp/x/restart" (Node (Some "") (Some Denied)) fresh.

End Demo.

(** ** Vocabulary of the properties *)

Definition outcome_log {A} (o : outcome A) : list event :=
  match o with
  | Ok _ w | Raise _ w | Hang w => log w
  end.

Local Open Scope list_scope.

(** The handles created by the [Spawn] events of a log, and the handles
    that were sent SIGTERM. *)
Definition spawned (l : list event) : list Z :=
  flat_map (fun e => match e with Spawn pid _ => [pid] | _ => [] end) l.
Definition signalled (l : list event) : list Z :=
  flat_map (fun e => match e with SendTerm pid => [pid] | _ => [] end) l.
Definition waited (l : list event) : list Z :=
  flat_map (fun e => match e with Waited pid _ => [pid] | _ => [] end) l.
Definition printed (l : list event) : list string :=
  flat_map (fun e => match e with Print s => [s] | _ => [] end) l.
Definition removals (l : list event) : list string :=
  flat_map (fun e => match e with Remove p _ => [p] | _ => [] end) l.

(** A child is alive until [wait] has returned for it. *)
Definition is_alive (w : world) (pid : Z) : bool :=
  match state_of w pid with
  | Exited _ => false
  | _ => true
  end.
Definition alive (w : world) (pid : Z) : Prop := is_alive w pid = true.

(** [wait] on the child returns: it was reaped already, or it exits once
    SIGTERM reaches it. *)
Definition reapable (w : world) (pid : Z) : Prop :=
  alive w pid → is_Some (worker_on_term (w_host w) pid).

(** What a call leaves alone when it only touches the process table and
    the log. *)
Definition same_surroundings (w w' : world) : Prop :=
  w_host w' = w_host w ∧ fs w' = fs w ∧ environ w' = environ w
  ∧ next_pid w' = next_pid w ∧ ps_stdout w' = ps_stdout w
  ∧ sigint_installed w' = sigint_installed w
  ∧ interrupted w' = interrupted w ∧ child_cell w' = child_cell w.

(** The events of [terminate_child] when it returns. *)
Definition terminate_events (was_alive : bool) (pid rc : Z) : list event :=
  Print ("Terminating child process with PID " +:+ Py.str pid)
  :: (if was_alive then [SendTerm pid] else []) ++ [Waited pid rc].

(** The events of the deletion of a sentinel file. *)
Definition delete_events (what path : string) (nd : node) : list event :=
  match n_unlink nd with
  | None => [Print ("Deleting " +:+ what +:+ " file..."); Remove path None]
  | Some f =>
      [Print ("Deleting " +:+ what +:+ " file...");
       Remove path (Some (exn_of_unlink_failure f));
       Print ("Unable to delete " +:+ what +:+ " file.")]
  end.

(** No worker is started while another one has not been waited for:
    [live] are the workers alive before the events [l]. *)
Fixpoint overlap_free (l : list event) (live : list Z) : bool :=
  match l with
  | [] => true
  | Spawn pid _ :: l' =>
      match live with
      | [] => overlap_free l' [pid]
      | _ :: _ => false
      end
  | Waited pid _ :: l' =>
      overlap_free l' (List.filter (fun p => negb (p =? pid)) live)
  | _ :: l' => overlap_free l' live
  end.

(** Events that neither start nor reap a process. *)
Definition neutral (e : event) : bool :=
  match e with
  | Spawn _ _ | Waited _ _ => false
  | _ => true
  end.

(** The exit code a stop-file asks for. *)
Definition requested_code (EXIT_NORMAL : Z) (nd : node) : Z :=
  match n_text nd with
  | Some text =>
      match Py.int (Py.readline text) with
      | Some n => n
      | None => EXIT_NORMAL
      end
  | None => EXIT_NORMAL
  end.

(** The world once the deletion of a sentinel file has been tried:
    the attempt is announced, and its failure reported. *)
Definition after_delete (what path : string) (nd : node) (w : world) : world :=
  let w1 := emit (Print ("Deleting " +:+ what +:+ " file...")) w in
  match n_unlink nd with
  | None => emit (Remove path None) (with_fs (delete path (fs w1)) w1)
  | Some f =>
      emit (Print ("Unable to delete " +:+ what +:+ " file."))
        (emit (Remove path (Some (exn_of_unlink_failure f))) w1)
  end.

Definition terminating_line (pid : Z) : string :=
  "Terminating child process with PID " +:+ Py.str pid.
Definition exited_line (code : Z) : string :=
  "Bazarr exited with status code " +:+ Py.str code +:+ ".".

(** The world once SIGTERM has been sent to a child that is alive. *)
Definition after_sigterm (pid : Z) (w : world) : world :=
  emit (SendTerm pid)
    (set_state pid Signalled (emit (Print (terminating_line pid)) w)).

(** What every stop tick leaves behind, whether it exits or blocks: the
    stop-file is the only deletion tried, the worker is signalled if it
    was alive, nothing is spawned. *)
Definition stop_tick_effects (w w' : world) (child : Z)
  (restart stop : string) : Prop :=
  spawned (log w') = spawned (log w)
  ∧ next_pid w' = next_pid w
  ∧ removals (log w') = removals (log w) ++ [stop]
  ∧ signalled (log w')
    = signalled (log w) ++ (if is_alive w child then [child] else [])
  ∧ (restart ≠ stop → fs w' !! restart = fs w !! restart).

(** The result of [get_main_script_path], which only looks at the file
    system, and of [get_python_path]. *)
Definition main_script_of (w : world) : string :=
  match get_main_script_path w with
  | Ok p _ => p
  | _ => ""
  end.
Definition python_of (w : world) : string :=
  match get_python_path w with
  | Ok p _ => p
  | _ => ""
  end.

(** The command line of the worker: interpreter, [-u], main script, and
    the arguments of the supervisor after its program name. *)
Definition worker_command (w : world) : list string :=
  [python_of w; "-u"; os_path_normcase (w_host w) (main_script_of w)]
  ++ tail (sys_argv (w_host w)).

Definition starting_line (pid : Z) : string :=
  "Bazarr starting child process with PID " +:+ Py.str pid +:+ "...".

(** Events of [get_python_path] on macOS: no process is touched. *)
Definition setup_only (evs : list event) : Prop :=
  Forall (fun e => match e with
                   | Mkdtemp _ | Symlink _ _ => True
                   | _ => False
                   end) evs.

(** What [start_bazarr] leaves alone. *)
Definition same_session (w w' : world) : Prop :=
  w_host w' = w_host w ∧ environ w' = environ w
  ∧ interrupted w' = interrupted w ∧ child_cell w' = child_cell w
  ∧ sigint_installed w' = sigint_installed w.

(** The events of a restart tick that goes through: deletion, then
    termination, then the start of the new worker. *)
Definition restart_events (what path : string) (nd : node)
  (was_alive : bool) (child rc : Z) (setup : list event)
  (new : Z) (cmd : list string) : list event :=
  delete_events what path nd
  ++ terminate_events was_alive child rc
  ++ [Print "Bazarr is restarting..."]
  ++ setup
  ++ [Spawn new cmd; Print (starting_line new)].

(** The outcome of a tick that finds the restart-file and no stop-file. *)
Definition restart_tick_outcome (w : world) (child : Z) (restart : string)
  (nr : node) (o : outcome Z) : Prop :=
  match o with
  | Ok new w' =>
      ∃ rc w1 setup cmd,
        terminate_child child (after_delete "restart" restart nr w) = Ok tt w1
        ∧ state_of w1 child = Exited rc
        ∧ start_bazarr (emit (Print "Bazarr is restarting...") w1) = Ok new w'
        ∧ log w' = log w ++ restart_events "restart" restart nr
                              (is_alive w child) child rc setup new cmd
        ∧ overlap_free (restart_events "restart" restart nr
                          (is_alive w child) child rc setup new cmd) [child]
          = true
        ∧ alive w' new
        ∧ (∀ p, alive w' p → p = new ∨ (p ≠ child ∧ alive w p))
  | Raise e w' =>
      e = FileNotFoundError
      ∧ ¬ alive w' child
      ∧ spawned (log w') = spawned (log w)
  | Hang w' =>
      ¬ reapable w child
      ∧ spawned (log w') = spawned (log w)
      ∧ waited (log w') = waited (log w)
  end.

Definition outcome_world {A} (o : outcome A) : world :=
  match o with
  | Ok _ w | Raise _ w | Hang w => w
  end.

(** [m] takes every world to a world related to it by [R], however it
    completes. *)
Definition preserves {A} (R : relation world) (m : M A) : Prop :=
  ∀ w, R w (outcome_world (m w)).

(** The command line of every worker ends with the arguments of the
    supervisor after its program name. *)
Definition passes_arguments (h : host) (e : event) : Prop :=
  match e with
  | Spawn _ argv => drop 3 argv = tail (sys_argv h)
  | _ => True
  end.

(** Three relations between the world before and after a piece of the
    launcher. All keep the host and extend the log by events that pass
    the arguments on; [quiet] also keeps the flag [interrupted] as it is,
    [flag_kept] keeps it once it is set. *)
Definition extended (w w' : world) : Prop :=
  w_host w' = w_host w
  ∧ ∃ evs, log w' = log w ++ evs ∧ Forall (passes_arguments (w_host w)) evs.
Definition quiet (w w' : world) : Prop :=
  interrupted w' = interrupted w ∧ extended w w'.
Definition flag_kept (w w' : world) : Prop :=
  (interrupted w = true → interrupted w' = true) ∧ extended w w'.

(** The command [is_process_running] runs on this platform, if any. *)
Definition probe_command (h : host) (pid : Z) : option (list string) :=
  snd <$> List.find (fun kc => Py.startswith (sys_platform h) (fst kc))
            (commands pid).

(** What the probe answers: whether the pid is a word of the listing;
    [False] on a platform without a command. *)
Definition listed (h : host) (stdout : list string → string) (pid : Z) : bool :=
  match probe_command h pid with
  | Some cmd => Py.contains (Py.str pid) (Py.split (stdout cmd))
  | None => false
  end.

Definition probe_event (h : host) (pid : Z) : event :=
  match probe_command h pid with
  | Some cmd => Probe cmd
  | None => Print "Unsupported OS"
  end.

(** The world in which the handler runs for an interrupt that arrives
    during the sleep of an idle tick. *)
Definition asleep (child : Z) (listing : string) (w : world) : world :=
  with_ps_stdout (fun _ => listing)
    (emit (Sleep 5) (with_child_cell (Some child) w)).

(** The steps of the startup sequence that an event stands for. *)
Inductive step :=
| InstallHandler
| ExposeEnv (key value : string)
| DeleteStale (path : string)
| SpawnWorker.

Definition step_of (e : event) : option step :=
  match e with
  | SignalInstalled => Some InstallHandler
  | SetEnv k v => Some (ExposeEnv k v)
  | Remove p _ => Some (DeleteStale p)
  | Spawn _ _ => Some SpawnWorker
  | _ => None
  end.

Definition steps (l : list event) : list step := omap step_of l.

(** The order in which [main] takes these steps. *)
Definition startup_steps (FILE_RESTART FILE_STOP ENV_RESTARTFILE ENV_STOPFILE
  : string) (h : host) : list step :=
  [ InstallHandler;
    ExposeEnv ENV_STOPFILE (stop_path FILE_STOP h);
    ExposeEnv ENV_RESTARTFILE (restart_path FILE_RESTART h);
    DeleteStale (restart_path FILE_RESTART h);
    DeleteStale (stop_path FILE_STOP h);
    SpawnWorker ].

(** The order of the startup sequence as the specification words it:
    the paths exposed, the stale files deleted, the worker spawned, and
    the handler installed last. *)
Fixpoint skip_exposed (ss : list step) : list step :=
  match ss with
  | ExposeEnv _ _ :: ss' => skip_exposed ss'
  | _ => ss
  end.
Fixpoint skip_deleted (ss : list step) : list step :=
  match ss with
  | DeleteStale _ :: ss' => skip_deleted ss'
  | _ => ss
  end.
Definition handler_installed_last (ss : list step) : bool :=
  match skip_deleted (skip_exposed ss) with
  | [SpawnWorker; InstallHandler] => true
  | _ => false
  end.

(** [m] logs events that stand for the steps [ss] when it returns, and
    for the first of them when it raises; it does not block. *)
Definition performs {A} (m : M A) (ss : host → list step) : Prop :=
  ∀ w,
    match m w with
    | Ok _ w' =>
        w_host w' = w_host w
        ∧ ∃ evs, log w' = log w ++ evs ∧ steps evs = ss (w_host w)
    | Raise _ w' =>
        ∃ evs, log w' = log w ++ evs ∧ steps evs `prefix_of` ss (w_host w)
    | Hang _ => False
    end.

(** The option of get_args.py that the launcher reads for itself:
    [-c DIR] or [--config DIR], which sets [args.config_dir]. *)
Definition is_config_option (a : string) : bool :=
  String.eqb a "-c" || String.eqb a "--config".

(** [args.config_dir] for a command line that gives options and values
    as separate words: the value of the last configuration option, or
    the default. *)
Fixpoint parse_config_dir (current : string) (argv : list string) : string :=
  match argv with
  | [] => current
  | a :: rest =>
      if is_config_option a then
        match rest with
        | value :: rest' => parse_config_dir value rest'
        | [] => current
        end
      else parse_config_dir current rest
  end.

(** The arguments of the supervisor except those it consumes itself, as
    the specification words the argument list of the worker. *)
Fixpoint not_consumed (argv : list string) : list string :=
  match argv with
  | [] => []
  | a :: rest =>
      if is_config_option a then
        match rest with
        | _ :: rest' => not_consumed rest'
        | [] => []
        end
      else a :: not_consumed rest
  end.

(** The cleanup of a leftover file in [main]. *)
Definition cleanup (path : string) : M unit :=
  try_except (os_remove path) is_FileNotFoundError (fun _ => pass).

(** The world of [main] once the handler is installed and the two paths
    are exposed, [w] being the world after the version check. *)
Definition prepared (FILE_RESTART FILE_STOP ENV_RESTARTFILE ENV_STOPFILE
  : string) (w : world) : world :=
  let h := w_host w in
  let w1 := emit SignalInstalled
              (with_sigint_installed true
                 (with_child_cell None (with_interrupted false w))) in
  let w2 := emit (SetEnv ENV_STOPFILE (stop_path FILE_STOP h))
              (with_environ
                 (<[ENV_STOPFILE := stop_path FILE_STOP h]> (environ w1)) w1) in
  emit (SetEnv ENV_RESTARTFILE (restart_path FILE_RESTART h))
    (with_environ
       (<[ENV_RESTARTFILE := restart_path FILE_RESTART h]> (environ w2)) w2).

(** ** Checks of the model on concrete inputs *)

Example int_newline : Py.int (Py.readline ("7" ++ String "010" "rest")) = Some 7.
Proof. reflexivity. Qed.
Example int_examples :
  map Py.int [" 7 "; "+7"; "-7"; "- 7"; "1_000"; "_1"; "1_"; "1__0"; ""; "+";
              "007"; "7.0"; "0x10"; "5 5"; "-0"; String "028" "5"; String "133" "5"]
  = [Some 7; Some 7; Some (-7); None; Some 1000; None; None; None; None; None;
     Some 7; None; None; None; Some 0; None; Some 5].
Proof. vm_compute. reflexivity. Qed.
Example split_example :
  Py.split ("  12 " ++ String "010" "345" ++ String "009" "" ++ String "010" "")
  = ["12"; "345"].
Proof. vm_compute. reflexivity. Qed.
Example str_examples : map Py.str [0; 42; -100] = ["0"; "42"; "-100"].
Proof. vm_compute. reflexivity. Qed.

Example posix_paths :
  (Posix.join "/tmp/x" "stop", Posix.join "/tmp/x/" "stop", Posix.join "/a" "/b",
   Posix.dirname "/opt/bazarr/bazarr/launcher.py", Posix.dirname "/main.py",
   Posix.dirname "main.py")
  = ("/tmp/x/stop", "/tmp/x/stop", "/b", "/opt/bazarr/bazarr", "/", "").
Proof. vm_compute. reflexivity. Qed.

(** The scenarios of the stop request and of the restart request. *)
Example stop_scenario :
  outcome_log
    (check_status Demo.EXIT_NORMAL 4242 "/tmp/x/restart" "/tmp/x/stop"
       Demo.stop_requested)
  = [Print "Deleting stop file..."; Remove "/tmp/x/stop" None;
     Print "Terminating child process with PID 4242";
     SendTerm 4242; Waited 4242 (-15);
     Print "Bazarr exited with status code 7."].
Proof. by vm_compute. Qed.

Example restart_scenario :
  outcome_log
    (check_status Demo.EXIT_NORMAL 4242 "/tmp/x/restart" "/tmp/x/stop"
       Demo.restart_requested)
  = [Print "Deleting restart file..."; Remove "/tmp/x/restart" None;
     Print "Terminating child process with PID 4242";
     SendTerm 4242; Waited 4242 (-15); Print "Bazarr is restarting...";
     Spawn 4243
       ["/usr/bin/python3"; "-u"; "/opt/bazarr/bazarr/main.py"; "-c";
        "/tmp/x"; "--debug"];
     Print "Bazarr starting child process with PID 4243..."].
Proof. by vm_compute. Qed.

(** ** Lemmas on the primitives *)

#[local] Arguments terminate_child : simpl never.
#[local] Arguments start_bazarr : simpl never.
#[local] Arguments exit_program : simpl never.
#[local] Arguments get_stop_status_code : simpl never.
#[local] Arguments check_status : simpl never.
#[local] Arguments is_process_running : simpl never.
#[local] Arguments interrupt_handler : simpl never.
#[local] Arguments get_python_path : simpl never.
#[local] Arguments get_main_script_path : simpl never.
#[local] Arguments check_python_version : simpl never.

Ltac run :=
  unfold returning, seq, if_, stmt, return_, try_finally, try_except,
    bind, ret, pass, get, modify, raise, print in *;
  cbn -[String.append] in *.

Lemma state_of_set_state w pid st other :
  state_of (set_state pid st w) other =
  if decide (pid = other) then
    match procs w !! pid with Some _ => st | None => Exited 0 end
  else state_of w other.
Proof.
  unfold state_of, set_state; cbn. rewrite lookup_alter.
  destruct (decide (pid = other)) as [->|]; [|done].
  by destruct (procs w !! other).
Qed.

Lemma state_of_emit e w pid : state_of (emit e w) pid = state_of w pid.
Proof. reflexivity. Qed.

Lemma state_of_with_fs f w pid : state_of (with_fs f w) pid = state_of w pid.
Proof. reflexivity. Qed.

Lemma alive_in_table w pid : alive w pid → is_Some (procs w !! pid).
Proof.
  unfold alive, is_alive, state_of. destruct (procs w !! pid); [eauto | done].
Qed.

Lemma not_alive_exited w pid :
  is_alive w pid = false → ∃ rc, state_of w pid = Exited rc.
Proof. unfold is_alive. destruct (state_of w pid); naive_solver. Qed.

Lemma terminate_child_exited w pid rc :
  state_of w pid = Exited rc →
  terminate_child pid w
  = Ok tt (emit (Waited pid rc) (emit (Print (terminating_line pid)) w)).
Proof.
  intros H. unfold terminate_child, popen_poll, popen_terminate, popen_wait.
  run. rewrite !state_of_emit, H. cbn. by rewrite !state_of_emit, H.
Qed.

Lemma terminate_child_alive w pid :
  alive w pid →
  terminate_child pid w
  = match worker_on_term (w_host w) pid with
    | Some rc =>
        Ok tt (emit (Waited pid rc)
                 (set_state pid (Exited rc) (after_sigterm pid w)))
    | None => Hang (after_sigterm pid w)
    end.
Proof.
  intros H. pose proof (alive_in_table _ _ H) as [p Hp].
  unfold alive, is_alive in H.
  assert (Hs : state_of (after_sigterm pid w) pid = Signalled).
  { unfold after_sigterm. rewrite state_of_emit, state_of_set_state.
    rewrite decide_True by done. cbn. by rewrite Hp. }
  unfold terminate_child, popen_poll, popen_terminate, popen_wait. run.
  rewrite !state_of_emit.
  unfold after_sigterm, terminating_line in *.
  destruct (state_of w pid) eqn:E; try done;
    cbn -[String.append]; rewrite state_of_emit, E; cbn -[String.append];
    rewrite Hs; cbn -[String.append];
    by destruct (worker_on_term (w_host w) pid).
Qed.

(** ** Lemmas on the launcher's functions *)

(** Case analysis on the outcome of a call to [f] in the goal. *)
Ltac head_of t :=
  lazymatch t with
  | ?f _ => head_of f
  | _ => t
  end.

Ltac case_call f :=
  match goal with
  | |- context [?g ?x] =>
      lazymatch type of x with world => idtac end;
      let h := head_of g in
      constr_eq h f;
      destruct (g x) as [? ?|? ?|?] eqn:?;
      repeat match goal with u : unit |- _ => destruct u end
  end.

Lemma get_stop_status_code_found EXIT_NORMAL w path nd :
  fs w !! path = Some nd →
  get_stop_status_code EXIT_NORMAL path w = Ok (requested_code EXIT_NORMAL nd) w.
Proof.
  intros H. unfold get_stop_status_code, open_readline, py_int, requested_code.
  run. rewrite H. destruct (n_text nd) as [text|]; [|done].
  by destruct (Py.int (Py.readline text)).
Qed.

Lemma get_stop_status_code_missing EXIT_NORMAL w path :
  fs w !! path = None →
  get_stop_status_code EXIT_NORMAL path w = Ok EXIT_NORMAL w.
Proof.
  intros H. unfold get_stop_status_code, open_readline. run. by rewrite H.
Qed.

(** A poll tick that finds the stop-file: once the deletion has been
    tried, the worker is terminated and the program exits. *)
Lemma check_status_stop EXIT_NORMAL w child restart stop nd :
  fs w !! stop = Some nd →
  check_status EXIT_NORMAL child restart stop w
  = (terminate_child child ;; exit_program (requested_code EXIT_NORMAL nd))
      (after_delete "stop" stop nd w).
Proof.
  intros H. unfold check_status, os_path_exists. run. rewrite H.
  rewrite (get_stop_status_code_found _ _ _ _ H).
  unfold os_remove, after_delete.
  change ("Deleting " +:+ "stop" +:+ " file...") with "Deleting stop file...".
  change ("Unable to delete " +:+ "stop" +:+ " file.")
    with "Unable to delete stop file.".
  cbn -[String.append]. rewrite H.
  destruct (n_unlink nd) as [f|]; cbn -[String.append].
  - replace (is_Exception (exn_of_unlink_failure f)) with true
      by (by destruct f).
    cbn -[String.append].
    case_call terminate_child; unfold exit_program; by run.
  - case_call terminate_child; unfold exit_program; by run.
Qed.

(** A poll tick that finds the restart-file and no stop-file. *)
Lemma check_status_restart EXIT_NORMAL w child restart stop nr :
  fs w !! stop = None →
  fs w !! restart = Some nr →
  check_status EXIT_NORMAL child restart stop w
  = (terminate_child child ;; print "Bazarr is restarting..." ;; start_bazarr)
      (after_delete "restart" restart nr w).
Proof.
  intros Hs H. unfold check_status, os_path_exists. run. rewrite Hs, H.
  unfold os_remove, after_delete.
  change ("Deleting " +:+ "restart" +:+ " file...")
    with "Deleting restart file...".
  change ("Unable to delete " +:+ "restart" +:+ " file.")
    with "Unable to delete restart file.".
  cbn -[String.append]. rewrite H.
  destruct (n_unlink nr) as [f|]; cbn -[String.append].
  - replace (is_Exception (exn_of_unlink_failure f)) with true
      by (by destruct f).
    cbn -[String.append].
    case_call terminate_child; try done;
      cbn -[String.append]; by case_call start_bazarr.
  - case_call terminate_child; try done;
      cbn -[String.append]; by case_call start_bazarr.
Qed.

Lemma check_status_idle EXIT_NORMAL w child restart stop :
  fs w !! stop = None →
  fs w !! restart = None →
  check_status EXIT_NORMAL child restart stop w = Ok child w.
Proof.
  intros Hs Hr. unfold check_status, os_path_exists. run. by rewrite Hs, Hr.
Qed.

Lemma log_after_delete what path nd w :
  log (after_delete what path nd w) = log w ++ delete_events what path nd.
Proof.
  unfold after_delete, delete_events.
  destruct (n_unlink nd); cbn -[String.append]; by rewrite <- ?app_assoc.
Qed.

Lemma state_of_after_delete what path nd w pid :
  state_of (after_delete what path nd w) pid = state_of w pid.
Proof. unfold after_delete. by destruct (n_unlink nd). Qed.

Lemma host_after_delete what path nd w :
  w_host (after_delete what path nd w) = w_host w.
Proof. unfold after_delete. by destruct (n_unlink nd). Qed.

(** [terminate_child] returns for a child that can be reaped, which is
    then no longer alive; nothing but the child's entry and the log
    changes. *)
Lemma terminate_child_returns w pid :
  reapable w pid →
  ∃ rc w',
    terminate_child pid w = Ok tt w'
    ∧ state_of w' pid = Exited rc
    ∧ log w' = log w ++ terminate_events (is_alive w pid) pid rc
    ∧ same_surroundings w w'
    ∧ (∀ q, q ≠ pid → procs w' !! q = procs w !! q).
Proof.
  intros Hr. destruct (is_alive w pid) eqn:Ha.
  - destruct (Hr Ha) as [rc Hrc]. exists rc.
    rewrite (terminate_child_alive _ _ Ha), Hrc. eexists; split; [done|].
    destruct (alive_in_table _ _ Ha) as [p Hp].
    split; [|split; [|split]].
    + rewrite state_of_emit, state_of_set_state, decide_True by done.
      unfold after_sigterm; cbn. by rewrite !lookup_alter_eq, Hp.
    + unfold after_sigterm, terminate_events, terminating_line.
      cbn -[String.append]. by rewrite <- !app_assoc.
    + by repeat split.
    + intros q Hq. cbn. by rewrite !lookup_alter_ne.
  - destruct (not_alive_exited _ _ Ha) as [rc Hrc]. exists rc.
    rewrite (terminate_child_exited _ _ _ Hrc). eexists; split; [done|].
    split; [by rewrite !state_of_emit|]. split; [|split].
    + unfold terminate_events, terminating_line.
      cbn -[String.append]. by rewrite <- !app_assoc.
    + by repeat split.
    + done.
Qed.

(** ... and it blocks in [wait] for a child that never exits. *)
Lemma terminate_child_blocks w pid :
  ¬ reapable w pid →
  terminate_child pid w = Hang (after_sigterm pid w).
Proof.
  intros Hn. unfold reapable in Hn.
  destruct (is_alive w pid) eqn:Ha.
  - rewrite (terminate_child_alive _ _ Ha).
    destruct (worker_on_term (w_host w) pid) eqn:E; [|done].
    exfalso. apply Hn. intros _. eauto.
  - exfalso. apply Hn. unfold alive. congruence.
Qed.

(** The exit of the program once the worker has been reaped: the status
    line, then [SystemExit]. *)
Lemma stop_exits w child code :
  reapable w child →
  ∃ rc w',
    (terminate_child child ;; exit_program code) w
    = Raise (A := Z) (SystemExit code) w'
    ∧ state_of w' child = Exited rc
    ∧ log w' = log w ++ terminate_events (is_alive w child) child rc
                     ++ [Print (exited_line code)]
    ∧ same_surroundings w w'
    ∧ (∀ q, q ≠ child → procs w' !! q = procs w !! q).
Proof.
  intros Hr.
  destruct (terminate_child_returns _ _ Hr) as (rc & w1 & E & Hst & Hl & Hf & Ho).
  exists rc, (emit (Print (exited_line code)) w1).
  unfold bind. rewrite E. unfold exit_program, exited_line. run.
  repeat split; try apply Hf; try done.
  by rewrite Hl, <- app_assoc.
Qed.

Lemma stop_blocks w child code :
  ¬ reapable w child →
  (terminate_child child ;; exit_program code) w
  = Hang (A := Z) (after_sigterm child w).
Proof. intros Hn. unfold bind. by rewrite (terminate_child_blocks _ _ Hn). Qed.

Lemma reapable_after_delete what path nd w pid :
  reapable (after_delete what path nd w) pid ↔ reapable w pid.
Proof.
  unfold reapable, alive, is_alive.
  by rewrite state_of_after_delete, host_after_delete.
Qed.

Lemma is_alive_after_delete what path nd w pid :
  is_alive (after_delete what path nd w) pid = is_alive w pid.
Proof. unfold is_alive. by rewrite state_of_after_delete. Qed.

(** An exception or a blocked call in [check_status] ends the loop of
    [main] the same way: the call is outside the [try] of the loop. *)
Lemma main_loop_propagates
  EXIT_NORMAL EXIT_INTERRUPT FILE_RESTART FILE_STOP w child sigints ticks :
  child_cell w = Some child →
  match check_status EXIT_NORMAL child
          (restart_path FILE_RESTART (w_host w))
          (stop_path FILE_STOP (w_host w)) w with
  | Ok _ _ => True
  | Raise e w' =>
      main_loop EXIT_NORMAL EXIT_INTERRUPT FILE_RESTART FILE_STOP
        (sigints :: ticks) w = Raise e w'
  | Hang w' =>
      main_loop EXIT_NORMAL EXIT_INTERRUPT FILE_RESTART FILE_STOP
        (sigints :: ticks) w = Hang w'
  end.
Proof.
  intros Hc. cbn [main_loop]. unfold main_iteration. run. rewrite Hc.
  by case_call check_status.
Qed.

(** The whole stop tick, for a worker that can be reaped. *)
Lemma check_status_stop_exits EXIT_NORMAL w child restart stop nd :
  fs w !! stop = Some nd →
  reapable w child →
  ∃ rc w',
    check_status EXIT_NORMAL child restart stop w
    = Raise (SystemExit (requested_code EXIT_NORMAL nd)) w'
    ∧ state_of w' child = Exited rc
    ∧ log w' = log w ++ delete_events "stop" stop nd
                     ++ terminate_events (is_alive w child) child rc
                     ++ [Print (exited_line (requested_code EXIT_NORMAL nd))]
    ∧ same_surroundings (after_delete "stop" stop nd w) w'
    ∧ (∀ q, q ≠ child → procs w' !! q = procs w !! q).
Proof.
  intros Hs Hr. rewrite (check_status_stop _ _ _ _ _ _ Hs).
  apply (reapable_after_delete "stop" stop nd) in Hr.
  destruct (stop_exits _ _ (requested_code EXIT_NORMAL nd) Hr)
    as (rc & w' & E & Hst & Hl & Hf & Ho).
  exists rc, w'. rewrite E. split; [done|]. split; [done|].
  rewrite Hl, log_after_delete, is_alive_after_delete, <- !app_assoc.
  split; [done|]. split; [done|].
  intros q Hq. rewrite (Ho q Hq). unfold after_delete.
  by destruct (n_unlink nd).
Qed.

Lemma check_status_stop_blocks EXIT_NORMAL w child restart stop nd :
  fs w !! stop = Some nd →
  ¬ reapable w child →
  check_status EXIT_NORMAL child restart stop w
  = Hang (after_sigterm child (after_delete "stop" stop nd w)).
Proof.
  intros Hs Hn. rewrite (check_status_stop _ _ _ _ _ _ Hs).
  apply stop_blocks. by rewrite reapable_after_delete.
Qed.

Lemma requested_code_parsed EXIT_NORMAL nd text N :
  n_text nd = Some text →
  Py.int (Py.readline text) = Some N →
  requested_code EXIT_NORMAL nd = N.
Proof. intros Ht Hi. unfold requested_code. by rewrite Ht, Hi. Qed.

Lemma requested_code_default EXIT_NORMAL nd :
  match n_text nd with
  | Some text => Py.int (Py.readline text) = None
  | None => True
  end →
  requested_code EXIT_NORMAL nd = EXIT_NORMAL.
Proof.
  unfold requested_code. destruct (n_text nd); [|done]. by intros ->.
Qed.

(** ** The claims *)

(** C1. When the first line of the stop-file parses as the integer [N],
    [get_stop_status_code] reads [N]; the poll tick that finds the file
    ends in [SystemExit N] after the status line for [N], and so does the
    loop of [main], once the worker has been reaped. A worker that never
    exits keeps the supervisor in [wait]: no other exit code is possible. *)
Theorem stop_file_code_is_exit_code
  EXIT_NORMAL EXIT_INTERRUPT FILE_RESTART FILE_STOP
  (w : world) (child : Z) (restart stop : string) (nd : node)
  (text : string) (N : Z) (sigints : list string) (ticks : list (list string)) :
  fs w !! stop = Some nd →
  n_text nd = Some text →
  Py.int (Py.readline text) = Some N →
  get_stop_status_code EXIT_NORMAL stop w = Ok N w
  ∧ (reapable w child →
     ∃ w', check_status EXIT_NORMAL child restart stop w
           = Raise (SystemExit N) w'
           ∧ last (log w') = Some (Print (exited_line N))
           ∧ (child_cell w = Some child →
              restart = restart_path FILE_RESTART (w_host w) →
              stop = stop_path FILE_STOP (w_host w) →
              main_loop EXIT_NORMAL EXIT_INTERRUPT FILE_RESTART FILE_STOP
                (sigints :: ticks) w = Raise (SystemExit N) w'))
  ∧ (¬ reapable w child →
     ∃ w', check_status EXIT_NORMAL child restart stop w = Hang w').
Proof.
  intros Hs Ht Hi.
  pose proof (requested_code_parsed EXIT_NORMAL _ _ _ Ht Hi) as Hc.
  split; [|split].
  - by rewrite (get_stop_status_code_found _ _ _ _ Hs), Hc.
  - intros Hr.
    destruct (check_status_stop_exits EXIT_NORMAL _ _ restart _ _ Hs Hr)
      as (rc & w' & E & _ & Hl & _).
    rewrite Hc in *. exists w'. split; [done|]. split.
    + rewrite Hl, !app_assoc. apply last_snoc.
    + intros Hcell -> ->.
      pose proof (main_loop_propagates EXIT_NORMAL EXIT_INTERRUPT
                    FILE_RESTART FILE_STOP w child sigints ticks Hcell) as P.
      by rewrite E in P.
  - intros Hn. eexists. by apply check_status_stop_blocks.
Qed.

Lemma demo_reapable (w : world) (pid : Z) :
  w_host w = Demo.linux → reapable w pid.
Proof. intros H _. rewrite H. by eexists. Defined.

Lemma stop_file_code_is_exit_code_witness :
  ∃ w',
    check_status Demo.EXIT_NORMAL 4242 "/tmp/x/restart" "/tmp/x/stop"
      Demo.stop_requested = Raise (SystemExit 7) w'
    ∧ main_loop Demo.EXIT_NORMAL Demo.EXIT_INTERRUPT
        Demo.FILE_RESTART Demo.FILE_STOP [[]] Demo.stop_requested
      = Raise (SystemExit 7) w'.
Proof.
  destruct (stop_file_code_is_exit_code
              Demo.EXIT_NORMAL Demo.EXIT_INTERRUPT
              Demo.FILE_RESTART Demo.FILE_STOP
              Demo.stop_requested 4242 "/tmp/x/restart" "/tmp/x/stop"
              (Demo.plain (Demo.line "7")) (Demo.line "7") 7 [] [])
    as (_ & H & _); [by vm_compute | done | by vm_compute |].
  destruct (H (demo_reapable Demo.stop_requested 4242 eq_refl))
    as (w' & E & _ & Hm).
  exists w'. split; [exact E | by apply Hm].
Defined.

Lemma reapable_dec w pid : {reapable w pid} + {¬ reapable w pid}.
Proof.
  unfold reapable, alive.
  destruct (is_alive w pid); [|left; congruence].
  destruct (worker_on_term (w_host w) pid) as [rc|].
  - left. eauto.
  - right. intros H. by destruct (H eq_refl).
Qed.

Lemma spawned_app l1 l2 : spawned (l1 ++ l2) = spawned l1 ++ spawned l2.
Proof. apply flat_map_app. Qed.
Lemma signalled_app l1 l2 : signalled (l1 ++ l2) = signalled l1 ++ signalled l2.
Proof. apply flat_map_app. Qed.
Lemma removals_app l1 l2 : removals (l1 ++ l2) = removals l1 ++ removals l2.
Proof. apply flat_map_app. Qed.
Lemma printed_app l1 l2 : printed (l1 ++ l2) = printed l1 ++ printed l2.
Proof. apply flat_map_app. Qed.

Lemma delete_events_summary what path nd :
  spawned (delete_events what path nd) = []
  ∧ signalled (delete_events what path nd) = []
  ∧ removals (delete_events what path nd) = [path].
Proof. unfold delete_events. by destruct (n_unlink nd). Qed.

Lemma terminate_events_summary b pid rc :
  spawned (terminate_events b pid rc) = []
  ∧ signalled (terminate_events b pid rc) = (if b then [pid] else [])
  ∧ removals (terminate_events b pid rc) = [].
Proof. unfold terminate_events. by destruct b. Qed.

Lemma fs_after_delete_other what path nd w other :
  other ≠ path → fs (after_delete what path nd w) !! other = fs w !! other.
Proof.
  intros H. unfold after_delete. destruct (n_unlink nd); cbn; [done|].
  by rewrite lookup_delete_ne.
Qed.

(** C2. When the stop-file and the restart-file both exist, the tick
    takes the stop branch only: it never returns a handle, the only
    deletion tried is that of the stop-file, the worker is sent SIGTERM if
    it was alive, nothing is spawned and the restart-file stays; the tick
    ends in [SystemExit] with the code of the stop-file once the worker
    is reaped, and blocks in [wait] otherwise. *)
Theorem stop_takes_precedence EXIT_NORMAL
  (w : world) (child : Z) (restart stop : string) (nd nr : node) :
  fs w !! stop = Some nd →
  fs w !! restart = Some nr →
  match check_status EXIT_NORMAL child restart stop w with
  | Ok _ _ => False
  | Raise e w' =>
      e = SystemExit (requested_code EXIT_NORMAL nd)
      ∧ reapable w child
      ∧ ¬ alive w' child
      ∧ stop_tick_effects w w' child restart stop
  | Hang w' =>
      ¬ reapable w child ∧ stop_tick_effects w w' child restart stop
  end.
Proof.
  intros Hs Hr. destruct (reapable_dec w child) as [Hy|Hn].
  - destruct (check_status_stop_exits EXIT_NORMAL _ _ restart _ _ Hs Hy)
      as (rc & w' & -> & Hst & Hl & Hf & Ho).
    destruct Hf as (_ & Hfs & _ & Hnp & _).
    destruct (delete_events_summary "stop" stop nd) as (D1 & D2 & D3).
    destruct (terminate_events_summary (is_alive w child) child rc)
      as (T1 & T2 & T3).
    split; [done|]. split; [done|]. split.
    { unfold alive, is_alive. by rewrite Hst. }
    unfold stop_tick_effects. rewrite Hl.
    rewrite !spawned_app, !removals_app, !signalled_app.
    rewrite D1, D2, D3, T1, T2, T3. cbn. rewrite !app_nil_r.
    repeat split; try done.
    + rewrite Hnp. unfold after_delete. by destruct (n_unlink nd).
    + intros Hne. rewrite Hfs. by apply fs_after_delete_other.
  - rewrite (check_status_stop_blocks _ _ _ _ _ _ Hs Hn).
    split; [done|].
    destruct (delete_events_summary "stop" stop nd) as (D1 & D2 & D3).
    assert (Ha : is_alive w child = true).
    { destruct (is_alive w child) eqn:E; [done|].
      exfalso. apply Hn. unfold reapable, alive. congruence. }
    unfold stop_tick_effects, after_sigterm. cbn -[String.append].
    rewrite log_after_delete.
    rewrite !spawned_app, !removals_app, !signalled_app.
    rewrite D1, D2, D3, Ha. cbn. rewrite !app_nil_r.
    repeat split; try done.
    + unfold after_delete. by destruct (n_unlink nd).
    + intros Hne. by apply fs_after_delete_other.
Qed.

Lemma stop_takes_precedence_witness :
  ∃ w',
    check_status Demo.EXIT_NORMAL 4242 "/tmp/x/restart" "/tmp/x/stop"
      Demo.stop_and_restart_requested = Raise (SystemExit 7) w'
    ∧ spawned (log w') = []
    ∧ fs w' !! "/tmp/x/restart" = Some (Demo.plain "").
Proof.
  pose proof (stop_takes_precedence Demo.EXIT_NORMAL
                Demo.stop_and_restart_requested 4242
                "/tmp/x/restart" "/tmp/x/stop"
                (Demo.plain (Demo.line "7")) (Demo.plain "")) as H.
  destruct (check_status _ _ _ _ _) as [p w'|e w'|w'].
  - destruct H; by vm_compute.
  - destruct H as (-> & _ & _ & Hsp & _ & _ & _ & Hfs); [by vm_compute..|].
    exists w'. split; [done|]. split; [exact Hsp|].
    rewrite Hfs; [by vm_compute | done].
  - destruct H as [Hn _]; [by vm_compute..|].
    destruct Hn. by apply demo_reapable.
Defined.

(** C6. A stop-file that cannot be read, or whose first line is empty or
    is not a decimal integer, asks for [EXIT_NORMAL]: that is what
    [get_stop_status_code] returns (also for a path that is not there),
    and what the poll tick and the loop of [main] exit with once the
    worker is reaped. *)
Theorem malformed_stop_file_exits_normal
  EXIT_NORMAL EXIT_INTERRUPT FILE_RESTART FILE_STOP
  (w : world) (child : Z) (restart stop : string) (nd : node)
  (sigints : list string) (ticks : list (list string)) :
  fs w !! stop = Some nd →
  match n_text nd with
  | Some text => Py.int (Py.readline text) = None
  | None => True
  end →
  get_stop_status_code EXIT_NORMAL stop w = Ok EXIT_NORMAL w
  ∧ (∀ missing, fs w !! missing = None →
       get_stop_status_code EXIT_NORMAL missing w = Ok EXIT_NORMAL w)
  ∧ Py.int (Py.readline "") = None
  ∧ (reapable w child →
     ∃ w', check_status EXIT_NORMAL child restart stop w
           = Raise (SystemExit EXIT_NORMAL) w'
           ∧ last (log w') = Some (Print (exited_line EXIT_NORMAL))
           ∧ (child_cell w = Some child →
              restart = restart_path FILE_RESTART (w_host w) →
              stop = stop_path FILE_STOP (w_host w) →
              main_loop EXIT_NORMAL EXIT_INTERRUPT FILE_RESTART FILE_STOP
                (sigints :: ticks) w = Raise (SystemExit EXIT_NORMAL) w'))
  ∧ (¬ reapable w child →
     ∃ w', check_status EXIT_NORMAL child restart stop w = Hang w').
Proof.
  intros Hs Hbad.
  pose proof (requested_code_default EXIT_NORMAL _ Hbad) as Hc.
  split; [|split; [|split; [|split]]].
  - by rewrite (get_stop_status_code_found _ _ _ _ Hs), Hc.
  - intros missing Hm. by apply get_stop_status_code_missing.
  - reflexivity.
  - intros Hr.
    destruct (check_status_stop_exits EXIT_NORMAL _ _ restart _ _ Hs Hr)
      as (rc & w' & E & _ & Hl & _).
    rewrite Hc in *. exists w'. split; [done|]. split.
    + rewrite Hl, !app_assoc. apply last_snoc.
    + intros Hcell -> ->.
      pose proof (main_loop_propagates EXIT_NORMAL EXIT_INTERRUPT
                    FILE_RESTART FILE_STOP w child sigints ticks Hcell) as P.
      by rewrite E in P.
  - intros Hn. eexists. by apply check_status_stop_blocks.
Qed.

Lemma malformed_stop_file_exits_normal_witness :
  ∃ w',
    check_status Demo.EXIT_NORMAL 4242 "/tmp/x/restart" "/tmp/x/stop"
      Demo.garbled_stop_requested = Raise (SystemExit Demo.EXIT_NORMAL) w'
    ∧ main_loop Demo.EXIT_NORMAL Demo.EXIT_INTERRUPT
        Demo.FILE_RESTART Demo.FILE_STOP [[]] Demo.garbled_stop_requested
      = Raise (SystemExit Demo.EXIT_NORMAL) w'.
Proof.
  destruct (malformed_stop_file_exits_normal
              Demo.EXIT_NORMAL Demo.EXIT_INTERRUPT
              Demo.FILE_RESTART Demo.FILE_STOP
              Demo.garbled_stop_requested 4242 "/tmp/x/restart" "/tmp/x/stop"
              (Demo.plain "now") [] [])
    as (_ & _ & _ & H & _); [by vm_compute | by vm_compute |].
  destruct (H (demo_reapable Demo.garbled_stop_requested 4242 eq_refl))
    as (w' & E & _ & Hm).
  exists w'. split; [exact E | by apply Hm].
Defined.

(** C10. With neither sentinel file present, [check_status] returns the
    handle it was given and leaves the world as it found it: nothing is
    logged, signalled, waited for, spawned or deleted. *)
Theorem idle_tick_is_a_no_op EXIT_NORMAL
  (w : world) (child : Z) (restart stop : string) :
  fs w !! stop = None →
  fs w !! restart = None →
  check_status EXIT_NORMAL child restart stop w = Ok child w.
Proof. apply check_status_idle. Qed.

Lemma idle_tick_is_a_no_op_witness :
  check_status Demo.EXIT_NORMAL 4242 "/tmp/x/restart" "/tmp/x/stop" Demo.polling
  = Ok 4242 Demo.polling.
Proof.
  apply (idle_tick_is_a_no_op Demo.EXIT_NORMAL Demo.polling 4242
           "/tmp/x/restart" "/tmp/x/stop"); by vm_compute.
Defined.

(** C9. [terminate_child] sends SIGTERM exactly when the child has not
    exited yet, and returns only once [wait] has returned, with the child
    exited; for a child that never exits it blocks in [wait]. On a handle
    that has exited it sends nothing and changes nothing: it prints its
    line and [wait] returns at once, so a second call after a first one
    that returned is such a call. *)
Theorem terminate_child_waits_and_is_idempotent (w : world) (pid : Z) :
  match terminate_child pid w with
  | Ok _ w' =>
      ∃ rc,
        state_of w' pid = Exited rc
        ∧ log w' = log w ++ terminate_events (is_alive w pid) pid rc
        ∧ signalled (log w')
          = signalled (log w) ++ (if is_alive w pid then [pid] else [])
        ∧ terminate_child pid w'
          = Ok tt (emit (Waited pid rc) (emit (Print (terminating_line pid)) w'))
  | Raise _ _ => False
  | Hang w' =>
      alive w pid
      ∧ worker_on_term (w_host w) pid = None
      ∧ log w' = log w ++ [Print (terminating_line pid); SendTerm pid]
  end.
Proof.
  destruct (reapable_dec w pid) as [Hy|Hn].
  - destruct (terminate_child_returns _ _ Hy) as (rc & w' & -> & Hst & Hl & _).
    exists rc. split; [done|]. split; [done|]. split.
    + rewrite Hl, signalled_app.
      by destruct (terminate_events_summary (is_alive w pid) pid rc)
        as (_ & -> & _).
    + by apply terminate_child_exited.
  - rewrite (terminate_child_blocks _ _ Hn).
    assert (Ha : alive w pid).
    { unfold alive. destruct (is_alive w pid) eqn:E; [done|].
      exfalso. apply Hn. unfold reapable, alive. congruence. }
    split; [done|]. split.
    + destruct (worker_on_term (w_host w) pid) eqn:E; [|done].
      exfalso. apply Hn. intros _. eauto.
    + unfold after_sigterm. cbn -[String.append]. by rewrite <- app_assoc.
Qed.

Example terminate_child_demo :
  outcome_log (terminate_child 4242 Demo.polling)
  = [Print "Terminating child process with PID 4242"; SendTerm 4242;
     Waited 4242 (-15)]
  ∧ outcome_log
      ((terminate_child 4242 ;; terminate_child 4242) Demo.polling)
    = [Print "Terminating child process with PID 4242"; SendTerm 4242;
       Waited 4242 (-15);
       Print "Terminating child process with PID 4242"; Waited 4242 (-15)].
Proof. by vm_compute. Qed.

(** *** Starting the worker *)

Lemma get_main_script_path_pure w :
  get_main_script_path w = Ok (main_script_of w) w.
Proof.
  unfold main_script_of, get_main_script_path, os_path_exists. run.
  destruct (bazarr_main_file (w_host w)); cbn;
    repeat match goal with
           | |- context [fs w !! ?p] => destruct (fs w !! p); cbn
           end; done.
Qed.

Lemma get_python_path_frame w :
  ∃ w1 evs,
    get_python_path w = Ok (python_of w) w1
    ∧ log w1 = log w ++ evs ∧ setup_only evs
    ∧ w_host w1 = w_host w ∧ procs w1 = procs w ∧ environ w1 = environ w
    ∧ next_pid w1 = next_pid w ∧ interrupted w1 = interrupted w
    ∧ child_cell w1 = child_cell w
    ∧ sigint_installed w1 = sigint_installed w.
Proof.
  unfold python_of, get_python_path, os_path_exists, tempfile_mkdtemp_call,
    os_symlink. run.
  destruct (String.eqb _ _); cbn;
    repeat match goal with
           | |- context [match ?m !! ?p with _ => _ end] =>
               destruct (m !! p); cbn
           end;
    (eexists _, _; split; [reflexivity|]; cbn; rewrite <- ?app_assoc;
     split; [reflexivity || symmetry; apply app_nil_r|];
     repeat split; try done; by repeat constructor).
Qed.

(** [start_bazarr] either fails before anything is spawned, or creates
    one running process with the command line [worker_command]. *)
Lemma start_bazarr_outcome w :
  match start_bazarr w with
  | Ok pid w' =>
      pid = next_pid w
      ∧ same_session w w'
      ∧ procs w'
        = <[pid := Process (worker_command w) (environ w) Running]> (procs w)
      ∧ ∃ evs, setup_only evs
               ∧ log w' = log w ++ evs ++ [Spawn pid (worker_command w);
                                           Print (starting_line pid)]
  | Raise e w' =>
      e = FileNotFoundError
      ∧ same_session w w'
      ∧ procs w' = procs w
      ∧ ∃ evs, setup_only evs ∧ log w' = log w ++ evs
  | Hang _ => False
  end.
Proof.
  destruct (get_python_path_frame w)
    as (w1 & evs & E & Hl & Hev & Hh & Hp & He & Hn & Hi & Hc & Hsi).
  unfold start_bazarr, worker_command. run.
  rewrite get_main_script_path_pure. cbn -[String.append]. rewrite E.
  unfold popen. cbn -[String.append].
  destruct (fs w1 !! python_of w); cbn -[String.append].
  - rewrite ?Hh, ?Hp, ?He, ?Hn. split; [done|]. split; [by repeat split|].
    split; [done|]. exists evs. split; [done|].
    unfold starting_line. by rewrite Hl, <- !app_assoc.
  - split; [done|]. split; [by repeat split|]. split; [done|]. by exists evs.
Qed.

Lemma overlap_free_neutral l l' live :
  forallb neutral l = true →
  overlap_free (l ++ l') live = overlap_free l' live.
Proof.
  induction l as [|e l IH]; [done|]. cbn. intros H.
  apply andb_prop in H as [He Hl]. destruct e; try done; by apply IH.
Qed.

Lemma setup_only_neutral evs : setup_only evs → forallb neutral evs = true.
Proof.
  induction 1 as [|e l He _ IH]; [done|]. cbn. rewrite IH.
  by destruct e.
Qed.

Lemma setup_only_summary evs :
  setup_only evs →
  spawned evs = [] ∧ waited evs = [] ∧ signalled evs = []
  ∧ removals evs = [] ∧ printed evs = [].
Proof.
  induction 1 as [|e l He _ IH]; [done|].
  destruct IH as (? & ? & ? & ? & ?). by destruct e.
Qed.

Lemma delete_events_neutral what path nd :
  forallb neutral (delete_events what path nd) = true.
Proof. unfold delete_events. by destruct (n_unlink nd). Qed.

Lemma waited_app l1 l2 : waited (l1 ++ l2) = waited l1 ++ waited l2.
Proof. apply flat_map_app. Qed.

Lemma restart_events_overlap_free what path nd b child rc setup new cmd :
  setup_only setup →
  overlap_free (restart_events what path nd b child rc setup new cmd) [child]
  = true.
Proof.
  intros Hs. unfold restart_events.
  rewrite overlap_free_neutral by apply delete_events_neutral.
  unfold terminate_events.
  destruct b; cbn; rewrite Z.eqb_refl; cbn;
    by rewrite (overlap_free_neutral _ _ _ (setup_only_neutral _ Hs)).
Qed.

Lemma restart_events_summary what path nd b child rc setup new cmd :
  setup_only setup →
  spawned (restart_events what path nd b child rc setup new cmd) = [new]
  ∧ waited (restart_events what path nd b child rc setup new cmd) = [child]
  ∧ removals (restart_events what path nd b child rc setup new cmd) = [path].
Proof.
  intros Hs. destruct (setup_only_summary _ Hs) as (S1 & S2 & _ & S4 & _).
  unfold restart_events, delete_events, terminate_events.
  rewrite !spawned_app, !waited_app, !removals_app, S1, S2, S4.
  by destruct (n_unlink nd), b.
Qed.

Lemma procs_after_delete what path nd w :
  procs (after_delete what path nd w) = procs w.
Proof. unfold after_delete. by destruct (n_unlink nd). Qed.

Lemma check_status_restart_outcome EXIT_NORMAL
  (w : world) (child : Z) (restart stop : string) (nr : node) :
  fs w !! stop = None →
  fs w !! restart = Some nr →
  restart_tick_outcome w child restart nr
    (check_status EXIT_NORMAL child restart stop w).
Proof.
  intros Hs Hr. unfold restart_tick_outcome.
  rewrite (check_status_restart _ _ _ _ _ _ Hs Hr).
  destruct (reapable_dec w child) as [Hy|Hn].
  - apply (reapable_after_delete "restart" restart nr) in Hy.
    destruct (terminate_child_returns _ _ Hy)
      as (rc & w1 & E & Hst & Hl & Hf & Ho).
    unfold bind at 1. rewrite E. unfold bind, print, modify. cbn -[String.append].
    pose proof (start_bazarr_outcome (emit (Print "Bazarr is restarting...") w1))
      as Hsb.
    destruct (start_bazarr _) as [new w'|e w'|w'] eqn:Esb; [| |done].
    + destruct Hsb as (Hnew & _ & Hp & setup & Hsetup & Hl').
      exists rc, w1, setup, (worker_command (emit (Print "Bazarr is restarting...") w1)).
      split; [done|]. split; [done|]. split; [done|]. split.
      { rewrite Hl'. cbn -[String.append]. rewrite Hl, log_after_delete.
        rewrite is_alive_after_delete. unfold restart_events.
        by rewrite <- !app_assoc. }
      split; [by apply restart_events_overlap_free|].
      assert (Hstate : ∀ p, state_of w' p
                = if decide (new = p) then Running else state_of w1 p).
      { intros p. unfold state_of. rewrite Hp. cbn. rewrite lookup_insert.
        by destruct (decide (new = p)). }
      split.
      { unfold alive, is_alive. by rewrite Hstate, decide_True. }
      intros p. unfold alive, is_alive. rewrite Hstate.
      destruct (decide (new = p)) as [->|Hne]; [by left|].
      intros Ha. right.
      destruct (decide (p = child)) as [->|Hpc].
      { by rewrite Hst in Ha. }
      split; [done|]. unfold state_of in *.
      by rewrite (Ho p Hpc), procs_after_delete in Ha.
    + destruct Hsb as (-> & _ & Hp & setup & Hsetup & Hl').
      split; [done|]. split.
      { unfold alive, is_alive, state_of. rewrite Hp. cbn.
        unfold state_of in Hst. by rewrite Hst. }
      rewrite Hl'. cbn -[String.append]. rewrite Hl, log_after_delete.
      destruct (setup_only_summary _ Hsetup) as (S1 & _).
      destruct (delete_events_summary "restart" restart nr) as (D1 & _).
      destruct (terminate_events_summary
                  (is_alive (after_delete "restart" restart nr w) child)
                  child rc) as (T1 & _).
      rewrite !spawned_app, S1, D1, T1. cbn. by rewrite !app_nil_r.
  - assert (Hn' : ¬ reapable (after_delete "restart" restart nr w) child)
      by (by rewrite reapable_after_delete).
    unfold bind at 1. rewrite (terminate_child_blocks _ _ Hn').
    split; [done|]. unfold after_sigterm. cbn -[String.append].
    rewrite log_after_delete, !spawned_app, !waited_app.
    destruct (delete_events_summary "restart" restart nr) as (D1 & _).
    rewrite D1. unfold delete_events. cbn.
    destruct (n_unlink nr); cbn; by rewrite !app_nil_r.
Qed.

(** C3. A tick that finds the restart-file (and no stop-file) starts the
    new worker from a world in which [terminate_child] has returned and
    the old worker has exited: the [Waited] event of the old worker comes
    before the [Spawn] event, no worker is started while the old one
    has not been waited for, and afterwards the old worker is not alive.
    When the old worker never exits the tick blocks and spawns nothing. *)
Theorem restart_reaps_before_spawning EXIT_NORMAL
  (w : world) (child : Z) (restart stop : string) (nr : node) :
  fs w !! stop = None →
  fs w !! restart = Some nr →
  match check_status EXIT_NORMAL child restart stop w with
  | Ok new w' =>
      ∃ rc w1 setup cmd,
        terminate_child child (after_delete "restart" restart nr w) = Ok tt w1
        ∧ state_of w1 child = Exited rc
        ∧ start_bazarr (emit (Print "Bazarr is restarting...") w1) = Ok new w'
        ∧ log w' = log w ++ restart_events "restart" restart nr
                              (is_alive w child) child rc setup new cmd
        ∧ overlap_free (restart_events "restart" restart nr
                          (is_alive w child) child rc setup new cmd) [child]
          = true
        ∧ alive w' new
        ∧ (∀ p, alive w' p → p = new ∨ (p ≠ child ∧ alive w p))
  | Raise e w' =>
      e = FileNotFoundError
      ∧ ¬ alive w' child
      ∧ spawned (log w') = spawned (log w)
  | Hang w' =>
      ¬ reapable w child
      ∧ spawned (log w') = spawned (log w)
      ∧ waited (log w') = waited (log w)
  end.
Proof. apply check_status_restart_outcome. Qed.

Lemma restart_reaps_before_spawning_witness :
  ∃ w',
    check_status Demo.EXIT_NORMAL 4242 "/tmp/x/restart" "/tmp/x/stop"
      Demo.restart_requested = Ok 4243 w'
    ∧ ¬ alive w' 4242 ∧ alive w' 4243.
Proof.
  pose proof (restart_reaps_before_spawning Demo.EXIT_NORMAL
                Demo.restart_requested 4242 "/tmp/x/restart" "/tmp/x/stop"
                (Demo.plain "")) as H.
  specialize (H ltac:(by vm_compute) ltac:(by vm_compute)).
  destruct (check_status _ _ _ _ _) as [new w'|e w'|w'] eqn:E.
  - vm_compute in E. injection E as <- Hw.
    destruct H as (rc & w1 & setup & cmd & _ & _ & _ & _ & _ & Ha & Hall).
    exists w'. split; [done|]. split; [|done].
    intros Hold. by destruct (Hall _ Hold) as [?|[? _]].
  - vm_compute in E. discriminate E.
  - destruct H as [Hn _]. destruct Hn.
    by apply (demo_reapable Demo.restart_requested 4242).
Defined.

(** *** Invariants of whole runs *)

Section Preserves.

Context (R : relation world) `{!PreOrder R}.

Lemma preserves_ret {A} (a : A) : preserves R (ret a).
Proof. intros w. cbn. reflexivity. Qed.

Lemma preserves_raise {A} (e : exn) : preserves R (raise (A := A) e).
Proof. intros w. cbn. reflexivity. Qed.

Lemma preserves_get {A} (f : world → A) : preserves R (get f).
Proof. intros w. cbn. reflexivity. Qed.

Lemma preserves_bind {A B} (m : M A) (k : A → M B) :
  preserves R m → (∀ a, preserves R (k a)) → preserves R (bind m k).
Proof.
  intros Hm Hk w. unfold bind. specialize (Hm w).
  destruct (m w) as [a w1|e w1|w1]; cbn in *; [|done..].
  etrans; [exact Hm | apply Hk].
Qed.

Lemma preserves_try_except {A} (body : M A) catches (handler : exn → M A) :
  preserves R body → (∀ e, preserves R (handler e)) →
  preserves R (try_except body catches handler).
Proof.
  intros Hb Hh w. unfold try_except. specialize (Hb w).
  destruct (body w) as [a w1|e w1|w1]; cbn in *; [done| |done].
  destruct (catches e); [|done]. etrans; [exact Hb | apply Hh].
Qed.

Lemma preserves_try_finally {T} (body fin : block T) :
  preserves R body → preserves R fin → preserves R (try_finally body fin).
Proof.
  intros Hb Hf w. unfold try_finally. specialize (Hb w).
  destruct (body w) as [a w1|e w1|w1]; cbn in *; [| |done];
    specialize (Hf w1);
    (destruct (fin w1) as [[|r] w2|e2 w2|w2]; cbn in *; by etrans).
Qed.

Lemma preserves_modify (f : world → world) :
  (∀ w, R w (f w)) → preserves R (modify f).
Proof. intros H w. apply H. Qed.

End Preserves.

Lemma preserves_weaken {A} (R R' : relation world) (m : M A) :
  (∀ w w', R w w' → R' w w') → preserves R m → preserves R' m.
Proof. intros H Hm w. apply H, Hm. Qed.

#[local] Instance extended_preorder : PreOrder extended.
Proof.
  split.
  - intros w. split; [done|]. exists []. by rewrite app_nil_r.
  - intros w1 w2 w3 (H1 & l1 & E1 & F1) (H2 & l2 & E2 & F2).
    split; [congruence|]. exists (l1 ++ l2).
    rewrite E2, E1, <- app_assoc. split; [done|].
    apply Forall_app. split; [done|]. by rewrite <- H1.
Qed.

#[local] Instance quiet_preorder : PreOrder quiet.
Proof.
  split.
  - intros w. split; reflexivity.
  - intros w1 w2 w3 [H1 E1] [H2 E2]. split; [congruence | by etrans].
Qed.

#[local] Instance flag_kept_preorder : PreOrder flag_kept.
Proof.
  split.
  - intros w. split; [done | reflexivity].
  - intros w1 w2 w3 [H1 E1] [H2 E2]. split; [auto | by etrans].
Qed.

Lemma quiet_flag_kept w w' : quiet w w' → flag_kept w w'.
Proof. intros [H E]. split; [congruence | done]. Qed.

Lemma flag_kept_extended w w' : flag_kept w w' → extended w w'.
Proof. by intros [_ E]. Qed.

(** A step that logs one event which is not a [Spawn] and leaves the
    host and the flag alone. *)
Lemma quiet_emit e w w' :
  w_host w' = w_host w → interrupted w' = interrupted w →
  log w' = log w ++ [e] → passes_arguments (w_host w) e → quiet w w'.
Proof.
  intros Hh Hi Hl He. split; [done|]. split; [done|].
  exists [e]. split; [done|]. by constructor.
Qed.

Lemma quiet_silent w w' :
  w_host w' = w_host w → interrupted w' = interrupted w →
  log w' = log w → quiet w w'.
Proof.
  intros Hh Hi Hl. split; [done|]. split; [done|].
  exists []. by rewrite app_nil_r.
Qed.

(** A primitive is quiet: by cases on what it finds in the world. *)
Ltac quiet_primitive :=
  intros w; cbn -[String.append];
  repeat match goal with
         | |- context [match ?x with _ => _ end] => destruct x
         end;
  cbn -[String.append];
  first [ by apply quiet_silent | by eapply quiet_emit ].

Lemma quiet_print s : preserves quiet (print s).
Proof. unfold print, modify. quiet_primitive. Qed.
Lemma quiet_os_path_exists p : preserves quiet (os_path_exists p).
Proof. apply preserves_get, _. Qed.
Lemma quiet_os_remove p : preserves quiet (os_remove p).
Proof. unfold os_remove. quiet_primitive. Qed.
Lemma quiet_open_readline p : preserves quiet (open_readline p).
Proof. unfold open_readline. quiet_primitive. Qed.
Lemma quiet_py_int s : preserves quiet (py_int s).
Proof. unfold py_int, ret, raise. quiet_primitive. Qed.
Lemma quiet_os_environ_set k v : preserves quiet (os_environ_set k v).
Proof. unfold os_environ_set, modify. quiet_primitive. Qed.
Lemma quiet_popen_poll pid : preserves quiet (popen_poll pid).
Proof. apply preserves_get, _. Qed.
Lemma quiet_popen_terminate pid : preserves quiet (popen_terminate pid).
Proof. unfold popen_terminate. quiet_primitive. Qed.
Lemma quiet_popen_wait pid : preserves quiet (popen_wait pid).
Proof. unfold popen_wait. quiet_primitive. Qed.
Lemma quiet_subprocess_run_stdout cmd :
  preserves quiet (subprocess_run_stdout cmd).
Proof. unfold subprocess_run_stdout, bind, modify, get. quiet_primitive. Qed.
Lemma quiet_signal_install_sigint : preserves quiet signal_install_sigint.
Proof. unfold signal_install_sigint, modify. quiet_primitive. Qed.
Lemma quiet_with_child_cell c : preserves quiet (modify (with_child_cell c)).
Proof. unfold modify. quiet_primitive. Qed.
Lemma quiet_with_ps_stdout f : preserves quiet (modify (with_ps_stdout f)).
Proof. unfold modify. quiet_primitive. Qed.
Lemma quiet_emit_sleep n : preserves quiet (modify (emit (Sleep n))).
Proof. unfold modify. quiet_primitive. Qed.

Lemma worker_command_passes_arguments w :
  drop 3 (worker_command w) = tail (sys_argv (w_host w)).
Proof. reflexivity. Qed.

Lemma quiet_start_bazarr : preserves quiet start_bazarr.
Proof.
  intros w. pose proof (start_bazarr_outcome w) as H.
  destruct (start_bazarr w) as [pid w'|e w'|w']; [| |done]; cbn.
  - destruct H as (_ & (Hh & _ & Hi & _) & _ & evs & Hev & Hl).
    split; [done|]. split; [done|]. eexists. split; [exact Hl|].
    apply Forall_app. split.
    + eapply Forall_impl; [exact Hev|]. by intros [].
    + by repeat constructor.
  - destruct H as (_ & (Hh & _ & Hi & _) & _ & evs & Hev & Hl).
    split; [done|]. split; [done|]. eexists. split; [exact Hl|].
    eapply Forall_impl; [exact Hev|]. by intros [].
Qed.

Create HintDb quiet_db.
#[local] Hint Resolve quiet_print quiet_os_path_exists quiet_os_remove
  quiet_open_readline quiet_py_int quiet_os_environ_set quiet_popen_poll
  quiet_popen_terminate quiet_popen_wait quiet_subprocess_run_stdout
  quiet_signal_install_sigint quiet_with_child_cell quiet_with_ps_stdout
  quiet_emit_sleep quiet_start_bazarr : quiet_db.

(** A function built from quiet pieces is quiet: follow its syntax. *)
Ltac preserves_step :=
  first
    [ solve [eauto with quiet_db]
    | apply preserves_bind; [typeclasses eauto| |intro]
    | apply preserves_ret; typeclasses eauto
    | apply preserves_raise; typeclasses eauto
    | apply preserves_get; typeclasses eauto
    | apply preserves_try_except; [typeclasses eauto| |intro]
    | apply preserves_try_finally; [typeclasses eauto| |]
    | match goal with
      | |- preserves _ (match ?x with _ => _ end) => destruct x
      end ].

Ltac preserves_auto :=
  unfold returning, seq, if_, stmt, return_, pass;
  repeat preserves_step.

Lemma quiet_exit_program {A} code : preserves quiet (exit_program (A := A) code).
Proof. unfold exit_program. preserves_auto. Qed.

Lemma quiet_terminate_child pid : preserves quiet (terminate_child pid).
Proof. unfold terminate_child. preserves_auto. Qed.

Lemma quiet_get_stop_status_code EXIT_NORMAL p :
  preserves quiet (get_stop_status_code EXIT_NORMAL p).
Proof. unfold get_stop_status_code. preserves_auto. Qed.

#[local] Hint Resolve quiet_exit_program quiet_terminate_child
  quiet_get_stop_status_code : quiet_db.

Lemma quiet_check_status EXIT_NORMAL child restart stop :
  preserves quiet (check_status EXIT_NORMAL child restart stop).
Proof. unfold check_status. preserves_auto. Qed.

Lemma quiet_is_process_running pid : preserves quiet (is_process_running pid).
Proof.
  unfold is_process_running, commands. cbn [probe_first]. preserves_auto.
Qed.

#[local] Hint Resolve quiet_check_status quiet_is_process_running : quiet_db.

Lemma quiet_to_flag_kept {A} (m : M A) :
  preserves quiet m → preserves flag_kept m.
Proof. apply preserves_weaken, quiet_flag_kept. Qed.

Lemma quiet_to_extended {A} (m : M A) :
  preserves quiet m → preserves extended m.
Proof.
  apply preserves_weaken. intros w w' H. by apply flag_kept_extended, quiet_flag_kept.
Qed.

Lemma flag_kept_to_extended {A} (m : M A) :
  preserves flag_kept m → preserves extended m.
Proof. apply preserves_weaken, flag_kept_extended. Qed.

Lemma flag_kept_set_interrupted :
  preserves flag_kept (modify (with_interrupted true)).
Proof.
  intros w. cbn. split; [done|]. split; [done|].
  exists []. by rewrite app_nil_r.
Qed.

Create HintDb flag_db.
#[local] Hint Resolve flag_kept_set_interrupted : flag_db.

Ltac flag_step :=
  first
    [ solve [eauto with flag_db]
    | solve [apply quiet_to_flag_kept; eauto with quiet_db]
    | preserves_step ].

Ltac flag_auto :=
  unfold returning, seq, if_, stmt, return_, pass;
  repeat flag_step.

Lemma flag_kept_interrupt_handler EXIT_INTERRUPT child :
  preserves flag_kept (interrupt_handler EXIT_INTERRUPT child).
Proof. unfold interrupt_handler. flag_auto. Qed.

#[local] Hint Resolve flag_kept_interrupt_handler : flag_db.

Lemma flag_kept_deliver_all EXIT_INTERRUPT listings :
  preserves flag_kept (deliver_all EXIT_INTERRUPT listings).
Proof.
  induction listings as [|l rest IH]; cbn [deliver_all].
  - flag_auto.
  - unfold deliver_sigint, _interrupt_handler. flag_auto.
Qed.

#[local] Hint Resolve flag_kept_deliver_all : flag_db.

Lemma flag_kept_main_iteration
  EXIT_NORMAL EXIT_INTERRUPT FILE_RESTART FILE_STOP sigints :
  preserves flag_kept
    (main_iteration EXIT_NORMAL EXIT_INTERRUPT FILE_RESTART FILE_STOP sigints).
Proof. unfold main_iteration, time_sleep. flag_auto. Qed.

#[local] Hint Resolve flag_kept_main_iteration : flag_db.

(** Over any schedule of ticks and interrupts, the loop of [main] keeps
    the flag once it is set, and starts workers with the arguments of
    the supervisor only. *)
Lemma flag_kept_main_loop
  EXIT_NORMAL EXIT_INTERRUPT FILE_RESTART FILE_STOP ticks :
  preserves flag_kept
    (main_loop EXIT_NORMAL EXIT_INTERRUPT FILE_RESTART FILE_STOP ticks).
Proof.
  induction ticks as [|sigints rest IH]; cbn [main_loop]; flag_auto.
Qed.

Lemma extended_check_python_version EXIT_PYTHON_UPGRADE_NEEDED :
  preserves extended (check_python_version EXIT_PYTHON_UPGRADE_NEEDED).
Proof.
  apply quiet_to_extended. unfold check_python_version. preserves_auto.
Qed.

Lemma extended_main_startup
  EXIT_PYTHON_UPGRADE_NEEDED FILE_RESTART FILE_STOP ENV_RESTARTFILE ENV_STOPFILE :
  preserves extended
    (main_startup EXIT_PYTHON_UPGRADE_NEEDED FILE_RESTART FILE_STOP
       ENV_RESTARTFILE ENV_STOPFILE).
Proof.
  unfold main_startup.
  apply preserves_bind; [apply _|apply extended_check_python_version|intros _].
  apply preserves_bind; [apply _| |intros _].
  { apply preserves_modify. intros w. split; [done|].
    exists []. by rewrite app_nil_r. }
  apply quiet_to_extended. preserves_auto.
Qed.

Lemma extended_main
  EXIT_PYTHON_UPGRADE_NEEDED EXIT_NORMAL EXIT_INTERRUPT
  FILE_RESTART FILE_STOP ENV_RESTARTFILE ENV_STOPFILE ticks :
  preserves extended
    (main EXIT_PYTHON_UPGRADE_NEEDED EXIT_NORMAL EXIT_INTERRUPT
       FILE_RESTART FILE_STOP ENV_RESTARTFILE ENV_STOPFILE ticks).
Proof.
  unfold main. apply preserves_bind; [apply _| |intros _].
  - apply extended_main_startup.
  - apply flag_kept_to_extended, flag_kept_main_loop.
Qed.

(** *** The liveness probe and the interrupt handler *)

Lemma is_process_running_answer w pid :
  is_process_running pid w
  = Ok (listed (w_host w) (ps_stdout w) pid)
       (emit (probe_event (w_host w) pid) w).
Proof.
  unfold is_process_running, listed, probe_event, probe_command, commands.
  unfold subprocess_run_stdout. run.
  repeat (destruct (Py.startswith _ _); [done|]; cbn -[String.append]).
  done.
Qed.

Lemma interrupt_handler_first EXIT_INTERRUPT w child :
  interrupted w = false →
  interrupt_handler EXIT_INTERRUPT child w
  = Ok tt (emit (Print "Handling keyboard interrupt...")
             (with_interrupted true w)).
Proof. intros H. unfold interrupt_handler. run. by rewrite H. Qed.

Lemma interrupt_handler_again EXIT_INTERRUPT w child :
  interrupted w = true →
  interrupt_handler EXIT_INTERRUPT child w
  = if listed (w_host w) (ps_stdout w) child
    then Ok tt (emit (probe_event (w_host w) child) w)
    else Raise (SystemExit EXIT_INTERRUPT)
           (emit (probe_event (w_host w) child) w).
Proof.
  intros H. unfold interrupt_handler. run. rewrite H. cbn.
  rewrite is_process_running_answer. by destruct (listed _ _ _).
Qed.

(** An idle tick during whose sleep one interrupt arrives. *)
Lemma main_iteration_interrupted
  EXIT_NORMAL EXIT_INTERRUPT FILE_RESTART FILE_STOP w child listing :
  child_cell w = Some child →
  sigint_installed w = true →
  fs w !! stop_path FILE_STOP (w_host w) = None →
  fs w !! restart_path FILE_RESTART (w_host w) = None →
  main_iteration EXIT_NORMAL EXIT_INTERRUPT FILE_RESTART FILE_STOP [listing] w
  = match interrupt_handler EXIT_INTERRUPT child (asleep child listing w) with
    | Ok _ w' => Ok tt w'
    | Raise e w' =>
        if is_interrupt_like e then
          (print "Bazarr exited main script file via keyboard interrupt." ;;
           exit_program EXIT_INTERRUPT) w'
        else Raise e w'
    | Hang w' => Hang w'
    end.
Proof.
  intros Hc Hi Hs Hr. unfold main_iteration, time_sleep. run. rewrite Hc.
  rewrite (check_status_idle _ _ _ _ _ Hs Hr). cbn -[String.append].
  unfold deliver_sigint, _interrupt_handler. run. rewrite ?Hi, ?Hc.
  cbn -[String.append]. fold (asleep child listing w).
  by case_call interrupt_handler.
Qed.

(** C4. The handler has two states. With the flag clear, a delivery sets
    it, prints the acknowledgement and returns. With the flag set, a
    delivery runs the liveness probe: when the probe does not list the
    worker the handler raises [SystemExit EXIT_INTERRUPT], when it lists
    the worker the handler returns and only the probe is logged. Once
    set, the flag stays set through the handler, through a poll tick and
    through any run of the loop of [main]. In the loop, an interrupt that
    arrives during the sleep of an idle tick is acknowledged the first
    time, and ends the program with [EXIT_INTERRUPT] when the flag is set
    and the probe does not list the worker. *)
Theorem interrupt_escalation
  EXIT_NORMAL EXIT_INTERRUPT FILE_RESTART FILE_STOP
  (w : world) (child : Z) (restart stop : string)
  (listing : string) (ticks : list (list string)) :
  (interrupted w = false →
   interrupt_handler EXIT_INTERRUPT child w
   = Ok tt (emit (Print "Handling keyboard interrupt...")
              (with_interrupted true w)))
  ∧ (interrupted w = true →
     listed (w_host w) (ps_stdout w) child = false →
     interrupt_handler EXIT_INTERRUPT child w
     = Raise (SystemExit EXIT_INTERRUPT) (emit (probe_event (w_host w) child) w))
  ∧ (interrupted w = true →
     listed (w_host w) (ps_stdout w) child = true →
     interrupt_handler EXIT_INTERRUPT child w
     = Ok tt (emit (probe_event (w_host w) child) w))
  ∧ (interrupted w = true →
     interrupted (outcome_world (interrupt_handler EXIT_INTERRUPT child w))
     = true
     ∧ interrupted
         (outcome_world (check_status EXIT_NORMAL child restart stop w))
       = true
     ∧ interrupted
         (outcome_world
            (main_loop EXIT_NORMAL EXIT_INTERRUPT FILE_RESTART FILE_STOP
               ticks w))
       = true)
  ∧ (child_cell w = Some child →
     sigint_installed w = true →
     fs w !! stop_path FILE_STOP (w_host w) = None →
     fs w !! restart_path FILE_RESTART (w_host w) = None →
     (interrupted w = false →
      main_iteration EXIT_NORMAL EXIT_INTERRUPT FILE_RESTART FILE_STOP
        [listing] w
      = Ok tt (emit (Print "Handling keyboard interrupt...")
                 (with_interrupted true (asleep child listing w))))
     ∧ (interrupted w = true →
        listed (w_host w) (fun _ => listing) child = false →
        ∃ w',
          main_loop EXIT_NORMAL EXIT_INTERRUPT FILE_RESTART FILE_STOP
            ([listing] :: ticks) w
          = Raise (SystemExit EXIT_INTERRUPT) w'
          ∧ last (log w') = Some (Print (exited_line EXIT_INTERRUPT)))).
Proof.
  split; [apply interrupt_handler_first|]. split; [|split; [|split]].
  - intros Hi Hl. by rewrite (interrupt_handler_again _ _ _ Hi), Hl.
  - intros Hi Hl. by rewrite (interrupt_handler_again _ _ _ Hi), Hl.
  - intros Hi. split; [|split].
    + by apply (flag_kept_interrupt_handler EXIT_INTERRUPT child w).
    + by apply (quiet_flag_kept _ _
                  (quiet_check_status EXIT_NORMAL child restart stop w)).
    + by apply (flag_kept_main_loop EXIT_NORMAL EXIT_INTERRUPT
                  FILE_RESTART FILE_STOP ticks w).
  - intros Hc Hs Hfs Hfr.
    pose proof (main_iteration_interrupted EXIT_NORMAL EXIT_INTERRUPT
                  FILE_RESTART FILE_STOP w child listing Hc Hs Hfs Hfr) as E.
    split.
    + intros Hi. rewrite E.
      by rewrite (interrupt_handler_first EXIT_INTERRUPT
                    (asleep child listing w) child Hi).
    + intros Hi Hl. cbn [main_loop]. unfold bind at 1. rewrite E.
      rewrite (interrupt_handler_again EXIT_INTERRUPT
                 (asleep child listing w) child Hi).
      change (w_host (asleep child listing w)) with (w_host w).
      change (ps_stdout (asleep child listing w)) with (fun _ : list string => listing).
      rewrite Hl. cbn [is_interrupt_like].
      unfold exit_program, exited_line. run.
      eexists. split; [done|]. cbn -[String.append]. apply last_snoc.
Qed.

Lemma interrupt_escalation_witness :
  (∃ w',
     main_loop Demo.EXIT_NORMAL Demo.EXIT_INTERRUPT
       Demo.FILE_RESTART Demo.FILE_STOP [["1 4242"]; ["1 7"]] Demo.polling
     = Raise (SystemExit Demo.EXIT_INTERRUPT) w')
  ∧ interrupt_handler Demo.EXIT_INTERRUPT 4242
      (with_interrupted true (with_ps_stdout (fun _ => "1 4242") Demo.polling))
    = Ok tt (emit (Probe ["ps"; "-eo"; "pid"])
               (with_interrupted true
                  (with_ps_stdout (fun _ => "1 4242") Demo.polling))).
Proof.
  split.
  - destruct (interrupt_escalation
                Demo.EXIT_NORMAL Demo.EXIT_INTERRUPT
                Demo.FILE_RESTART Demo.FILE_STOP
                Demo.polling 4242 "" "" "1 4242" [])
      as (_ & _ & _ & _ & H).
    destruct H as [H1 _]; [by vm_compute..|].
    specialize (H1 eq_refl).
    cbn [main_loop]. unfold bind at 1. rewrite H1.
    destruct (interrupt_escalation
                Demo.EXIT_NORMAL Demo.EXIT_INTERRUPT
                Demo.FILE_RESTART Demo.FILE_STOP
                (emit (Print "Handling keyboard interrupt...")
                   (with_interrupted true (asleep 4242 "1 4242" Demo.polling)))
                4242 "" "" "1 7" [])
      as (_ & _ & _ & _ & H).
    destruct H as [_ H2]; [by vm_compute..|].
    destruct (H2 eq_refl) as (w' & E & _); [by vm_compute|].
    by exists w'.
  - by apply (interrupt_escalation
                Demo.EXIT_NORMAL Demo.EXIT_INTERRUPT
                Demo.FILE_RESTART Demo.FILE_STOP
                (with_interrupted true
                   (with_ps_stdout (fun _ => "1 4242") Demo.polling))
                4242 "" "" "" []).
Defined.

(** *** The startup sequence *)

Lemma steps_app l1 l2 : steps (l1 ++ l2) = steps l1 ++ steps l2.
Proof. apply omap_app. Qed.

Lemma performs_bind {A B} (m : M A) (k : A → M B) s1 s2 :
  performs m s1 → (∀ a, performs (k a) s2) →
  performs (bind m k) (fun h => s1 h ++ s2 h).
Proof.
  intros Hm Hk w. unfold bind. specialize (Hm w).
  destruct (m w) as [a w1|e w1|w1]; [| |done].
  - destruct Hm as (Hh & l1 & E1 & S1). specialize (Hk a w1).
    destruct (k a w1) as [b w2|e w2|w2]; [| |done].
    + destruct Hk as (Hh2 & l2 & E2 & S2). split; [congruence|].
      exists (l1 ++ l2). rewrite E2, E1, <- app_assoc, steps_app, S1, S2, Hh.
      done.
    + destruct Hk as (l2 & E2 & S2).
      exists (l1 ++ l2). rewrite E2, E1, <- app_assoc, steps_app, S1.
      split; [done|]. rewrite <- Hh. by apply prefix_app.
  - destruct Hm as (l1 & E1 & S1). exists l1. split; [done|].
    by apply prefix_app_r.
Qed.

(** A step that stands for nothing in the sequence. *)
Lemma performs_nothing {A} (m : M A) :
  (∀ w, match m w with
        | Ok _ w' | Raise _ w' =>
            w_host w' = w_host w ∧ ∃ evs, log w' = log w ++ evs ∧ steps evs = []
        | Hang _ => False
        end) →
  performs m (fun _ => []).
Proof.
  intros H w. specialize (H w).
  destruct (m w) as [a w'|e w'|w']; [done| |done].
  destruct H as (_ & evs & E & S). exists evs. by rewrite S.
Qed.

Lemma performs_get_host {A} (k : host → M A) ss :
  (∀ h, performs (k h) (fun _ => ss h)) →
  performs (bind (get w_host) k) ss.
Proof. intros H w. unfold bind, get. apply (H (w_host w) w). Qed.

(** One event, or none. *)
Ltac performs_primitive :=
  intros w; cbn -[String.append];
  repeat match goal with
         | |- context [match ?x with _ => _ end] => destruct x
         end;
  cbn -[String.append];
  try (split; [done|]);
  first [ by exists []; rewrite app_nil_r
        | by eexists [_]
        | eexists [_; _]; rewrite <- app_assoc; split; [done | reflexivity]
        | eexists [_]; split; [done | apply prefix_nil] ].

Lemma performs_check_python_version EXIT_PYTHON_UPGRADE_NEEDED :
  performs (check_python_version EXIT_PYTHON_UPGRADE_NEEDED) (fun _ => []).
Proof.
  unfold check_python_version, exit_program. intros w. run.
  destruct (python_version_tuple (w_host w)) as [[major minor] patch].
  destruct (major <? 3); cbn -[String.append].
  { eexists [_; _]. by rewrite <- app_assoc. }
  destruct ((major =? 3) && (minor >? 12)); cbn -[String.append].
  { split; [done|]. by eexists [_]. }
  destruct ((major =? 3) && (minor <? 8) || negb (major =? 3));
    cbn -[String.append].
  - eexists [_; _]. by rewrite <- app_assoc.
  - split; [done|]. exists []. by rewrite app_nil_r.
Qed.

Lemma performs_frame_of_main :
  performs (modify (fun w => with_child_cell None (with_interrupted false w)))
    (fun _ => []).
Proof. unfold modify. performs_primitive. Qed.

Lemma performs_signal_install_sigint :
  performs signal_install_sigint (fun _ => [InstallHandler]).
Proof. unfold signal_install_sigint, modify. performs_primitive. Qed.

Lemma performs_os_environ_set k v :
  performs (os_environ_set k v) (fun _ => [ExposeEnv k v]).
Proof. unfold os_environ_set, modify. performs_primitive. Qed.

(** The cleanup of one stale file: [FileNotFoundError] is passed over in
    silence, any other error of [os.remove] is raised. *)
Lemma performs_cleanup path :
  performs (try_except (os_remove path) is_FileNotFoundError (fun _ => pass))
    (fun _ => [DeleteStale path]).
Proof.
  unfold try_except, os_remove, pass, ret. intros w.
  destruct (fs w !! path) as [nd|]; cbn.
  - destruct (n_unlink nd) as [f|]; cbn.
    + replace (is_FileNotFoundError (exn_of_unlink_failure f)) with false
        by (by destruct f).
      by eexists [_].
    + split; [done|]. by eexists [_].
  - split; [done|]. by eexists [_].
Qed.

Lemma setup_only_steps evs : setup_only evs → steps evs = [].
Proof.
  induction 1 as [|e l He _ IH]; [done|]. unfold steps in *. cbn.
  destruct e; try done.
Qed.

Lemma performs_start_bazarr : performs start_bazarr (fun _ => [SpawnWorker]).
Proof.
  intros w. pose proof (start_bazarr_outcome w) as H.
  destruct (start_bazarr w) as [pid w'|e w'|w']; [| |done].
  - destruct H as (_ & (Hh & _) & _ & evs & Hev & Hl).
    split; [done|]. eexists. split; [exact Hl|].
    by rewrite steps_app, (setup_only_steps _ Hev).
  - destruct H as (_ & _ & _ & evs & Hev & Hl).
    exists evs. split; [done|]. rewrite (setup_only_steps _ Hev).
    apply prefix_nil.
Qed.

Lemma performs_with_child_cell c :
  performs (modify (with_child_cell c)) (fun _ => []).
Proof. unfold modify. performs_primitive. Qed.

Lemma performs_main_startup
  EXIT_PYTHON_UPGRADE_NEEDED FILE_RESTART FILE_STOP ENV_RESTARTFILE ENV_STOPFILE :
  performs
    (main_startup EXIT_PYTHON_UPGRADE_NEEDED FILE_RESTART FILE_STOP
       ENV_RESTARTFILE ENV_STOPFILE)
    (startup_steps FILE_RESTART FILE_STOP ENV_RESTARTFILE ENV_STOPFILE).
Proof.
  unfold main_startup, startup_steps.
  eapply (performs_bind _ _ (fun _ => []) _);
    [apply performs_check_python_version | intros _].
  eapply (performs_bind _ _ (fun _ => []) _);
    [apply performs_frame_of_main | intros _].
  eapply (performs_bind _ _ (fun _ => [InstallHandler]) _);
    [apply performs_signal_install_sigint | intros _].
  apply performs_get_host. intros h.
  eapply (performs_bind _ _ (fun _ => [_]) (fun _ => _ :: _));
    [apply performs_os_environ_set | intros _].
  eapply (performs_bind _ _ (fun _ => [_]) (fun _ => _ :: _));
    [apply performs_os_environ_set | intros _].
  eapply (performs_bind _ _ (fun _ => [_]) (fun _ => _ :: _));
    [apply performs_cleanup | intros _].
  eapply (performs_bind _ _ (fun _ => [_]) (fun _ => [_]));
    [apply performs_cleanup | intros _].
  eapply (performs_bind _ _ (fun _ => [SpawnWorker]) (fun _ => []));
    [apply performs_start_bazarr | intros child].
  apply performs_with_child_cell.
Qed.

(** C7, as the code has it. [main] installs the interrupt handler first;
    then come the two environment variables (stop-file, restart-file),
    whose values are the paths under the configuration directory, the two
    deletions (restart-file, stop-file) and the start of the worker,
    which is the last step. A startup that fails stops somewhere along
    this sequence. *)
Theorem startup_installs_handler_then_spawns
  EXIT_PYTHON_UPGRADE_NEEDED FILE_RESTART FILE_STOP ENV_RESTARTFILE ENV_STOPFILE
  (w : world) :
  match main_startup EXIT_PYTHON_UPGRADE_NEEDED FILE_RESTART FILE_STOP
          ENV_RESTARTFILE ENV_STOPFILE w with
  | Ok _ w' =>
      ∃ evs,
        log w' = log w ++ evs
        ∧ steps evs
          = startup_steps FILE_RESTART FILE_STOP ENV_RESTARTFILE ENV_STOPFILE
              (w_host w)
        ∧ head (steps evs) = Some InstallHandler
        ∧ last (steps evs) = Some SpawnWorker
        ∧ handler_installed_last (steps evs) = false
  | Raise _ w' =>
      ∃ evs,
        log w' = log w ++ evs
        ∧ steps evs `prefix_of`
            startup_steps FILE_RESTART FILE_STOP ENV_RESTARTFILE ENV_STOPFILE
              (w_host w)
  | Hang _ => False
  end.
Proof.
  pose proof (performs_main_startup EXIT_PYTHON_UPGRADE_NEEDED
                FILE_RESTART FILE_STOP ENV_RESTARTFILE ENV_STOPFILE w) as H.
  destruct (main_startup _ _ _ _ _ w) as [[] w'|e w'|w']; [|done..].
  destruct H as (_ & evs & E & S). exists evs. by rewrite S.
Qed.

(** C7 as the specification states it fails: on a first start the handler
    is the first step and the spawn the last one. *)
Lemma startup_does_not_install_handler_last :
  ∃ w',
    main_startup Demo.EXIT_PYTHON_UPGRADE_NEEDED Demo.FILE_RESTART
      Demo.FILE_STOP Demo.ENV_RESTARTFILE Demo.ENV_STOPFILE Demo.fresh
    = Ok tt w'
    ∧ steps (log w')
      = [ InstallHandler;
          ExposeEnv "STOPFILE" "/tmp/x/stop";
          ExposeEnv "RESTARTFILE" "/tmp/x/restart";
          DeleteStale "/tmp/x/restart";
          DeleteStale "/tmp/x/stop";
          SpawnWorker ]
    ∧ handler_installed_last (steps (log w')) = false.
Proof. eexists. split; [by vm_compute|]. by vm_compute. Qed.

(** *** The arguments of the worker *)

(** C8, as the code has it. The command line of every worker is the
    interpreter, [-u], the main script, and then every argument of the
    supervisor after its program name, in order and unchanged: nothing is
    left out, the configuration option included. This holds for the
    process [start_bazarr] creates, for the restart of a poll tick, and
    for every [Spawn] event of a whole run of [main]. The worker's
    environment is the supervisor's. *)
Theorem worker_gets_every_argument
  EXIT_PYTHON_UPGRADE_NEEDED EXIT_NORMAL EXIT_INTERRUPT
  FILE_RESTART FILE_STOP ENV_RESTARTFILE ENV_STOPFILE
  (w : world) (child : Z) (restart stop : string) (ticks : list (list string)) :
  worker_command w
  = [python_of w; "-u"; os_path_normcase (w_host w) (main_script_of w)]
    ++ tail (sys_argv (w_host w))
  ∧ match start_bazarr w with
    | Ok pid w' =>
        procs w' !! pid
        = Some (Process (worker_command w) (environ w) Running)
        ∧ Spawn pid (worker_command w) ∈ log w'
    | _ => True
    end
  ∧ extended w (outcome_world (check_status EXIT_NORMAL child restart stop w))
  ∧ extended w
      (outcome_world
         (main EXIT_PYTHON_UPGRADE_NEEDED EXIT_NORMAL EXIT_INTERRUPT
            FILE_RESTART FILE_STOP ENV_RESTARTFILE ENV_STOPFILE ticks w)).
Proof.
  split; [done|]. split; [|split].
  - pose proof (start_bazarr_outcome w) as H.
    destruct (start_bazarr w) as [pid w'|e w'|w']; [|done..].
    destruct H as (_ & _ & Hp & evs & _ & Hl). split.
    + rewrite Hp. apply lookup_insert_eq.
    + rewrite Hl, !elem_of_app. right. right. apply list_elem_of_here.
  - apply flag_kept_extended, quiet_flag_kept, quiet_check_status.
  - apply extended_main.
Qed.

(** C8 as the specification states it fails: the supervisor reads the
    configuration directory from [-c /tmp/x], and the worker is started
    with [-c /tmp/x] all the same. *)
Lemma worker_gets_consumed_arguments :
  parse_config_dir "/root/.bazarr" (tail (sys_argv Demo.linux))
  = args_config_dir Demo.linux
  ∧ ∃ w' argv,
      start_bazarr Demo.polling = Ok 4243 w'
      ∧ p_argv <$> procs w' !! 4243 = Some argv
      ∧ drop 3 argv = ["-c"; "/tmp/x"; "--debug"]
      ∧ not_consumed (tail (sys_argv Demo.linux)) = ["--debug"]
      ∧ drop 3 argv ≠ not_consumed (tail (sys_argv Demo.linux)).
Proof.
  split; [by vm_compute|]. eexists _, _.
  split; [by vm_compute|]. split; [by vm_compute|]. by vm_compute.
Qed.

(** *** Deleting the sentinel files *)

Lemma check_python_version_ok EXIT_PYTHON_UPGRADE_NEEDED w w0 :
  check_python_version EXIT_PYTHON_UPGRADE_NEEDED w = Ok tt w0 →
  w_host w0 = w_host w ∧ fs w0 = fs w ∧ procs w0 = procs w
  ∧ ∃ evs, log w0 = log w ++ evs ∧ spawned evs = [].
Proof.
  unfold check_python_version, exit_program. run.
  destruct (python_version_tuple (w_host w)) as [[major minor] patch].
  destruct (major <? 3); cbn -[String.append]; [done|].
  destruct ((major =? 3) && (minor >? 12)); cbn -[String.append].
  { intros [= <-]. repeat split. by eexists [_]. }
  destruct ((major =? 3) && (minor <? 8) || negb (major =? 3));
    cbn -[String.append]; [done|].
  intros [= <-]. repeat split. exists []. by rewrite app_nil_r.
Qed.

Lemma main_startup_prepared
  EXIT_PYTHON_UPGRADE_NEEDED FILE_RESTART FILE_STOP ENV_RESTARTFILE ENV_STOPFILE
  w w0 :
  check_python_version EXIT_PYTHON_UPGRADE_NEEDED w = Ok tt w0 →
  main_startup EXIT_PYTHON_UPGRADE_NEEDED FILE_RESTART FILE_STOP
    ENV_RESTARTFILE ENV_STOPFILE w
  = (cleanup (restart_path FILE_RESTART (w_host w0)) ;;
     cleanup (stop_path FILE_STOP (w_host w0)) ;;
     child_process <- start_bazarr ;;
     modify (with_child_cell (Some child_process)))
      (prepared FILE_RESTART FILE_STOP ENV_RESTARTFILE ENV_STOPFILE w0).
Proof.
  intros E. unfold main_startup. unfold bind at 1. by rewrite E.
Qed.

Lemma cleanup_missing path w :
  fs w !! path = None →
  cleanup path w = Ok tt (emit (Remove path (Some FileNotFoundError)) w).
Proof. intros H. unfold cleanup, try_except, os_remove. by rewrite H. Qed.

Lemma cleanup_deletes path nd w :
  fs w !! path = Some nd → n_unlink nd = None →
  cleanup path w
  = Ok tt (emit (Remove path None) (with_fs (delete path (fs w)) w)).
Proof. intros H Hu. unfold cleanup, try_except, os_remove. by rewrite H, Hu. Qed.

Lemma cleanup_fails path nd f w :
  fs w !! path = Some nd → n_unlink nd = Some f →
  cleanup path w
  = Raise (exn_of_unlink_failure f)
      (emit (Remove path (Some (exn_of_unlink_failure f))) w).
Proof.
  intros H Hu. unfold cleanup, try_except, os_remove. rewrite H, Hu.
  by destruct f.
Qed.

(** C5, as the code has it. In a poll tick the deletion of the sentinel
    file is tried first; its failure is reported by a line of output and
    the tick goes on as it does after a deletion that worked: the worker
    is terminated, and the program exits with the requested code (stop)
    or the new worker is started (restart). In the cleanup at startup
    only a file that is not there is passed over, and without a message:
    any other failure of [os.remove] is raised out of [main], before a
    worker has been started. *)
Theorem sentinel_deletion_failures
  EXIT_PYTHON_UPGRADE_NEEDED EXIT_NORMAL
  FILE_RESTART FILE_STOP ENV_RESTARTFILE ENV_STOPFILE
  (w : world) (child : Z) (restart stop : string) (nd : node) :
  (fs w !! stop = Some nd → reapable w child →
   ∃ rc w',
     check_status EXIT_NORMAL child restart stop w
     = Raise (SystemExit (requested_code EXIT_NORMAL nd)) w'
     ∧ log w' = log w ++ delete_events "stop" stop nd
                      ++ terminate_events (is_alive w child) child rc
                      ++ [Print (exited_line (requested_code EXIT_NORMAL nd))])
  ∧ (fs w !! stop = None → fs w !! restart = Some nd → reapable w child →
     match check_status EXIT_NORMAL child restart stop w with
     | Ok new w' =>
         ∃ rc setup cmd,
           log w' = log w ++ restart_events "restart" restart nd
                                (is_alive w child) child rc setup new cmd
     | Raise e w' => e = FileNotFoundError
     | Hang _ => False
     end)
  ∧ (∀ what path f,
       n_unlink nd = Some f →
       delete_events what path nd
       = [Print ("Deleting " +:+ what +:+ " file...");
          Remove path (Some (exn_of_unlink_failure f));
          Print ("Unable to delete " +:+ what +:+ " file.")])
  ∧ (∀ w0,
       check_python_version EXIT_PYTHON_UPGRADE_NEEDED w = Ok tt w0 →
       let start := main_startup EXIT_PYTHON_UPGRADE_NEEDED FILE_RESTART
                      FILE_STOP ENV_RESTARTFILE ENV_STOPFILE w in
       let ready := prepared FILE_RESTART FILE_STOP ENV_RESTARTFILE
                      ENV_STOPFILE w0 in
       let r := restart_path FILE_RESTART (w_host w) in
       let s := stop_path FILE_STOP (w_host w) in
       (fs w !! r = None → fs w !! s = None →
        start
        = (child_process <- start_bazarr ;;
           modify (with_child_cell (Some child_process)))
            (emit (Remove s (Some FileNotFoundError))
               (emit (Remove r (Some FileNotFoundError)) ready)))
       ∧ (∀ f, fs w !! r = Some nd → n_unlink nd = Some f →
          start
          = Raise (exn_of_unlink_failure f)
              (emit (Remove r (Some (exn_of_unlink_failure f))) ready))
       ∧ (∀ f, fs w !! r = None → fs w !! s = Some nd → n_unlink nd = Some f →
          start
          = Raise (exn_of_unlink_failure f)
              (emit (Remove s (Some (exn_of_unlink_failure f)))
                 (emit (Remove r (Some FileNotFoundError)) ready)))).
Proof.
  split; [|split; [|split]].
  - intros Hs Hr.
    destruct (check_status_stop_exits EXIT_NORMAL _ _ restart _ _ Hs Hr)
      as (rc & w' & E & _ & Hl & _).
    by exists rc, w'.
  - intros Hs Hr Hy.
    pose proof (check_status_restart_outcome EXIT_NORMAL _ child _ _ _ Hs Hr)
      as H.
    unfold restart_tick_outcome in H.
    destruct (check_status _ _ _ _ _) as [new w'|e w'|w'].
    + destruct H as (rc & w1 & setup & cmd & _ & _ & _ & Hl & _).
      by exists rc, setup, cmd.
    + by destruct H.
    + by destruct H.
  - intros what path f Hf. unfold delete_events. by rewrite Hf.
  - intros w0 E start ready r s. subst start.
    rewrite (main_startup_prepared _ _ _ _ _ _ _ E).
    destruct (check_python_version_ok _ _ _ E) as (Hh & Hfs & _).
    fold ready. rewrite Hh. fold r s.
    assert (Hready : ∀ e, fs (emit e ready) = fs w ∧ fs ready = fs w)
      by (by intros e; rewrite <- Hfs).
    split; [|split].
    + intros Hr Hs. unfold bind at 1.
      rewrite <- (proj2 (Hready SignalInstalled)) in Hr.
      rewrite (cleanup_missing r ready Hr). unfold bind at 1.
      rewrite <- (proj1 (Hready (Remove r (Some FileNotFoundError)))) in Hs.
      by rewrite (cleanup_missing s _ Hs).
    + intros f Hr Hf. unfold bind at 1.
      rewrite <- (proj2 (Hready SignalInstalled)) in Hr.
      by rewrite (cleanup_fails r nd f ready Hr Hf).
    + intros f Hr Hs Hf. unfold bind at 1.
      rewrite <- (proj2 (Hready SignalInstalled)) in Hr.
      rewrite (cleanup_missing r ready Hr). unfold bind at 1.
      rewrite <- (proj1 (Hready (Remove r (Some FileNotFoundError)))) in Hs.
      by rewrite (cleanup_fails s nd f _ Hs Hf).
Qed.

Lemma sentinel_deletion_failures_witness :
  (∃ rc w',
     check_status Demo.EXIT_NORMAL 4242 "/tmp/x/restart" "/tmp/x/stop"
       Demo.sticky_stop_requested = Raise (SystemExit 7) w'
     ∧ log w'
       = [Print "Deleting stop file...";
          Remove "/tmp/x/stop" (Some PermissionError);
          Print "Unable to delete stop file.";
          Print "Terminating child process with PID 4242";
          SendTerm 4242; Waited 4242 rc;
          Print "Bazarr exited with status code 7."])
  ∧ main_startup Demo.EXIT_PYTHON_UPGRADE_NEEDED Demo.FILE_RESTART
      Demo.FILE_STOP Demo.ENV_RESTARTFILE Demo.ENV_STOPFILE Demo.sticky_leftover
    = Raise PermissionError
        (emit (Remove "/tmp/x/restart" (Some PermissionError))
           (prepared Demo.FILE_RESTART Demo.FILE_STOP Demo.ENV_RESTARTFILE
              Demo.ENV_STOPFILE Demo.sticky_leftover)).
Proof.
  split.
  - destruct (sentinel_deletion_failures
                Demo.EXIT_PYTHON_UPGRADE_NEEDED Demo.EXIT_NORMAL
                Demo.FILE_RESTART Demo.FILE_STOP
                Demo.ENV_RESTARTFILE Demo.ENV_STOPFILE
                Demo.sticky_stop_requested 4242 "/tmp/x/restart" "/tmp/x/stop"
                (Node (Some (Demo.line "7")) (Some Denied)))
      as (H & _).
    destruct H as (rc & w' & E & Hl);
      [by vm_compute
      | by apply (demo_reapable Demo.sticky_stop_requested 4242) |].
    exists rc, w'. split; [exact E | exact Hl].
  - destruct (sentinel_deletion_failures
                Demo.EXIT_PYTHON_UPGRADE_NEEDED Demo.EXIT_NORMAL
                Demo.FILE_RESTART Demo.FILE_STOP
                Demo.ENV_RESTARTFILE Demo.ENV_STOPFILE
                Demo.sticky_leftover 0 "" ""
                (Node (Some "") (Some Denied)))
      as (_ & _ & _ & H).
    destruct (H Demo.sticky_leftover ltac:(by vm_compute)) as (_ & H2 & _).
    apply (H2 Denied); by vm_compute.
Defined.

(** C5 as the specification states it fails at startup: a leftover file
    that cannot be deleted ends [main] with the error, nothing having
    been printed nor spawned; and a missing file is passed over without
    any line of output. *)
Lemma startup_cleanup_failure_is_fatal_and_silent :
  (∃ w',
     main_startup Demo.EXIT_PYTHON_UPGRADE_NEEDED Demo.FILE_RESTART
       Demo.FILE_STOP Demo.ENV_RESTARTFILE Demo.ENV_STOPFILE Demo.sticky_leftover
     = Raise PermissionError w'
     ∧ printed (log w') = [] ∧ spawned (log w') = [] ∧ procs w' = ∅)
  ∧ (∃ w',
       main_startup Demo.EXIT_PYTHON_UPGRADE_NEEDED Demo.FILE_RESTART
         Demo.FILE_STOP Demo.ENV_RESTARTFILE Demo.ENV_STOPFILE Demo.fresh
       = Ok tt w'
       ∧ removals (log w') = ["/tmp/x/restart"; "/tmp/x/stop"]
       ∧ printed (log w')
         = ["Bazarr starting child process with PID 4242..."]).
Proof.
  split; eexists; (split; [by vm_compute|]); by vm_compute.
Qed.
